(** * Schema Sync: the command-line driver and its utilities

    A shallow embedding of [utils.py] (version comparison, patch file
    names, the output filters and [PatchBuffer]) and of the [app]
    function of [schemasync_tables.py], with the properties of the
    output-assembly layer proved over it.

    Conventions.  A Python [str] is a [string]; a character is a code
    point below 256.  Where a regular expression is applied the text
    is handled as a [list ascii].  The file system is a finite map from
    file names to contents; the log file of the [logging] module is
    one of these files. *)

From Stdlib Require Import ZArith Ascii String List Bool Lia DecimalString.
From stdpp Require Import base option list strings gmap.
From Equations Require Import Equations.

Import ListNotations.
Local Open Scope Z_scope.

(** ** Characters *)

Definition chr (n : nat) : ascii := ascii_of_nat n.

Definition LF : ascii := chr 10.
Definition SP : ascii := chr 32.
Definition SEMI : ascii := chr 59.
Definition USCORE : ascii := chr 95.

(** [Py_UNICODE_ISSPACE] on code points below 256: what [\s] matches in
    a [str] pattern. *)
Definition is_space (c : ascii) : bool :=
  let n := nat_of_ascii c in
  ((9 <=? n) && (n <=? 13) || (28 <=? n) && (n <=? 32)
   || (n =? 133) || (n =? 160))%nat.

(** The white space [int()] strips from a [str]: code points of 127 and
    above are first mapped to a blank when they are Unicode spaces,
    then the C locale-free [Py_ISSPACE] test is applied. *)
Definition is_int_space (c : ascii) : bool :=
  let n := nat_of_ascii c in
  ((9 <=? n) && (n <=? 13) || (n =? 32) || (n =? 133) || (n =? 160))%nat.

Definition is_digit (c : ascii) : bool :=
  let n := nat_of_ascii c in ((48 <=? n) && (n <=? 57))%nat.

Definition digit_val (c : ascii) : Z := Z.of_nat (nat_of_ascii c) - 48.

(** ** Python values returned by [compare_version] *)

Inductive PyVal : Type :=
| PyInt (n : Z)
| PyBool (b : bool).

(** [bool] is a subtype of [int]: [True] is 1 and [False] is 0 in every
    arithmetic comparison. *)
Definition py_num (v : PyVal) : Z :=
  match v with
  | PyInt n => n
  | PyBool true => 1
  | PyBool false => 0
  end.

(** [v < 0] *)
Definition py_lt0 (v : PyVal) : bool := py_num v <? 0.

(** ** [int(s)] for a [str] in base 10 *)

Fixpoint lstrip (s : list ascii) : list ascii :=
  match s with
  | c :: t => if is_int_space c then lstrip t else s
  | [] => []
  end.

Definition strip (s : list ascii) : list ascii :=
  rev (lstrip (rev (lstrip s))).

(** Digits, with single underscores allowed between two digits.
    [acc] is the value read so far, [after_digit] tells whether the
    previous character was a digit. *)
Fixpoint parse_digits (after_digit : bool) (acc : Z) (s : list ascii)
  : option Z :=
  match s with
  | [] => if after_digit then Some acc else None
  | c :: t =>
      if is_digit c then parse_digits true (10 * acc + digit_val c) t
      else if Ascii.eqb c USCORE then
        if after_digit then parse_digits false acc t else None
      else None
  end.

Definition py_int (s : string) : option Z :=
  match strip (list_ascii_of_string s) with
  | c :: t =>
      if Ascii.eqb c (chr 45) then Z.opp <$> parse_digits false 0 t
      else if Ascii.eqb c (chr 43) then parse_digits false 0 t
      else parse_digits false 0 (c :: t)
  | [] => None
  end.

(** ** [re.split(r'[.-]', s)] *)

Definition is_separator (c : ascii) : bool :=
  Ascii.eqb c (chr 46) || Ascii.eqb c (chr 45).

Fixpoint re_split (s : string) : list string :=
  match s with
  | EmptyString => [EmptyString]
  | String c t =>
      if is_separator c then EmptyString :: re_split t
      else match re_split t with
           | h :: r => String c h :: r
           | [] => [String c EmptyString]
           end
  end.

(** ** [compare_version]

    The loop over [range(min(len(x_array), len(y_array)))] walks the two
    arrays in step and stops at the shorter one. *)

Fixpoint compare_arrays (x_array y_array : list string) : PyVal :=
  match x_array, y_array with
  | x :: xs, y :: ys =>
      if String.eqb x y then compare_arrays xs ys
      else
        match py_int x with
        | None => PyInt 0                     (* ValueError *)
        | Some a =>
            match py_int y with
            | None => PyInt 0                 (* ValueError *)
            | Some b => PyBool (a =? b)       (* operator.eq *)
            end
        end
  | _, _ => PyInt 0
  end.

Definition compare_version (x y : string) : PyVal :=
  compare_arrays (re_split x) (re_split y).

(** ** [re.sub]

    A compiled pattern is represented by its anchored matcher: given
    the text from the current position to the end, it answers the
    length of the leftmost-greedy match that starts right there, if
    there is one.  No pattern of this program matches the empty
    string, so a match always consumes at least one character.
    [re_sub] scans from the left, replaces each match and resumes
    after it, as [Pattern.sub] does. *)

Definition matcher : Type := list ascii -> option nat.

Equations re_sub (m : matcher) (repl : list ascii) (s : list ascii)
  : list ascii by wf (length s) lt :=
re_sub m repl [] := [];
re_sub m repl (c :: t) with m (c :: t) := {
  | Some n => repl ++ re_sub m repl (drop (Nat.pred n) t)
  | None => c :: re_sub m repl t }.
Next Obligation. intros. rewrite length_drop. simpl. lia. Qed.

(** Length of the longest prefix of [s] made of characters in [p]. *)
Fixpoint span (p : ascii -> bool) (s : list ascii) : nat :=
  match s with
  | c :: t => if p c then S (span p t) else O
  | [] => O
  end.

(** [REGEX_MULTI_SPACE = \s\s+] *)
Definition REGEX_MULTI_SPACE : matcher := fun s =>
  match s with
  | c1 :: c2 :: t =>
      if is_space c1 && is_space c2 then Some (2 + span is_space t)%nat
      else None
  | _ => None
  end.

(** [REGEX_DISTANT_SEMICOLIN = (\s+;)$]: white space, a semicolon, and
    then the end of the text or a line feed that ends the text. *)
Definition at_dollar (s : list ascii) : bool :=
  match s with
  | [] => true
  | [c] => Ascii.eqb c LF
  | _ => false
  end.

Definition REGEX_DISTANT_SEMICOLIN : matcher := fun s =>
  let k := span is_space s in
  match k, drop k s with
  | S _, c :: rest =>
      if Ascii.eqb c SEMI && at_dollar rest then Some (S k) else None
  | _, _ => None
  end.

(** [REGEX_SEMICOLON_EXPLODE_TO_NEWLINE = ;\s+] *)
Definition REGEX_SEMICOLON_EXPLODE_TO_NEWLINE : matcher := fun s =>
  match s with
  | c1 :: c2 :: t =>
      if Ascii.eqb c1 SEMI && is_space c2 then Some (2 + span is_space t)%nat
      else None
  | _ => None
  end.

Definition text (s : string) : list ascii := list_ascii_of_string s.
Definition str (l : list ascii) : string := string_of_list_ascii l.

(** ** [create_pnames]

    [d] stands for [datetime.datetime.now().strftime(date_format)]: the
    clock belongs to the environment.  [tag] is [None] or a [str];
    [if tag:] holds for a non-empty [str] only. *)

Definition in_range (lo hi : nat) (c : ascii) : bool :=
  let n := nat_of_ascii c in ((lo <=? n) && (n <=? hi))%nat.

(** The class [[A-Za-z0-9_-]] *)
Definition is_tag_char (c : ascii) : bool :=
  in_range 65 90 c || in_range 97 122 c || in_range 48 57 c
  || Ascii.eqb c USCORE || Ascii.eqb c (chr 45).

Definition is_underscore (c : ascii) : bool := Ascii.eqb c USCORE.

(** The pattern [[^A-Za-z0-9_-]] *)
Definition REGEX_TAG_INVALID : matcher := fun s =>
  match s with
  | c :: _ => if is_tag_char c then None else Some 1%nat
  | [] => None
  end.

(** The pattern [_+] *)
Definition REGEX_UNDERSCORES : matcher := fun s =>
  match s with
  | c :: t => if is_underscore c then Some (S (span is_underscore t)) else None
  | [] => None
  end.

(** ['__' in tag] *)
Fixpoint has_double_underscore (s : list ascii) : bool :=
  match s with
  | c1 :: t =>
      match t with
      | c2 :: _ => is_underscore c1 && is_underscore c2 || has_double_underscore t
      | [] => false
      end
  | [] => false
  end.

Definition py_truthy (s : string) : bool :=
  match s with EmptyString => false | _ => true end.

Definition clean_tag (tag : string) : string :=
  let tag1 := re_sub REGEX_TAG_INVALID [USCORE] (text tag) in
  let tag2 := if has_double_underscore tag1
              then re_sub REGEX_UNDERSCORES [USCORE] tag1 else tag1 in
  str tag2.

Definition pnames_basename (db : string) (tag : option string) (d : string)
  (no_date : bool) : string :=
  match tag with
  | Some tg =>
      if py_truthy tg then db +:+ "_" +:+ clean_tag tg +:+ "." +:+ d
      else if no_date then db else db +:+ "." +:+ d
  | None => if no_date then db else db +:+ "." +:+ d
  end.

Definition create_pnames (db : string) (tag : option string) (d : string)
  (no_date : bool) : string * string :=
  let basename := pnames_basename db tag d no_date in
  (basename +:+ "." +:+ "patch.sql", basename +:+ "." +:+ "revert.sql").

(** ** The environment of a run

    [app] talks to two database servers, to the clock, to the file
    system, to the [logging] module and, for an alert, to a web hook.
    What they answer during one run is collected in [Env].  The
    synchronizers of module [syncdb] are generators, taken here as the
    finite sequences of [(patch, revert)] pairs they yield; an [Env]
    describes a run in which the servers answer every call. *)

Definition nl : string := String LF EmptyString.

Inductive Level : Type := ERROR | WARNING | INFO.

(** What a run prints, hands to the root logger, or sends as an alert *)
Inductive Event : Type :=
| Print (msg : string)
| LogError (msg : string)
| LogInfo (msg : string)
| LogWarning (msg : string)
| Alert (filename target_addr url : string).

(** An exception on its way out of a call: an [OSError] with its text,
    which the handler at the end of [app] catches, or another one. *)
Inductive Raised : Type :=
| OSError (text : string)
| Exception (exn : string).

(** The dict [parse_database_url] answers for a URL it can read: the
    key ['protocol'], and the key ['db'] when the URL names a
    database. *)
Record UrlInfo : Type := {
  protocol : string;
  db : option string
}.

Record SchemaObject : Type := {
  version : string;            (* server version *)
  host : string;
  port : string;               (* as printed by [%s] *)
  selected_name : string       (* [selected.name] *)
}.

(** The arguments of [app].  The two URLs and the output directory are
    of type [str], as [parse_cmd_line] passes them. *)
Record Options : Type := {
  sourcedb : string;
  targetdb : string;
  version_filename : bool;
  output_directory : string;
  log_directory : option string;
  no_date : bool;
  tag : option string;
  charset : option string;
  sync_auto_inc : bool;
  sync_comments : bool;
  filter_tables : option (list string);
  filter_views : option (list string);
  filter_triggers : option (list string);
  filter_procedures : option (list string);
  only_sync_exists_tables : bool;
  alert_url : option string;
  no_delete_result : bool
}.

Abbreviation FS := (gmap string string).
Abbreviation Pairs := (list (string * string)).

Record Env : Type := {
  source_obj : SchemaObject;
  target_obj : SchemaObject;
  (* rows answered to [SHOW TABLES FROM <target>], one dict per row *)
  show_tables : list (gmap string string);
  sync_schema : Options -> option (list string) -> Pairs;
  sync_views : option (list string) -> Pairs;
  sync_triggers : option (list string) -> Pairs;
  sync_procedures : option (list string) -> Pairs;
  today : string;              (* now().strftime(DATE_FORMAT) *)
  created : string;            (* now().strftime(TPL_DATE_FORMAT) *)
  versioned : FS -> string -> string;   (* utils.versioned on this disk *)
  can_open : string -> bool;   (* does opening this file for writing succeed *)
  (* [fh.write(text)] and [fh.close()] on a file just opened: [None]
     when both succeed, otherwise what reached the file before the
     [OSError] *)
  fh_write : string -> string -> option string;
  can_unlink : string -> bool; (* may this file be removed *)
  strerror : string -> string; (* [str(e)] of the [OSError] raised on this file *)
  isdir : string -> bool;      (* [os.path.isdir] when [app] is called *)
  can_makedirs : string -> bool;   (* does [os.makedirs(path, exist_ok=True)] succeed *)
  parse_database_url : string -> option UrlInfo;   (* [None]: a falsy answer *)
  (* the root logger when [app] is called: has it a handler already,
     and what its handlers then do to the files with one record *)
  root_has_handlers : bool;
  preset_emit : Level -> string -> FS -> FS;
  asctime : nat -> string;     (* [%(asctime)s] of a record logged after [n] events *)
  (* the runs of [app] over every schema of the server, when both URLs
     name the database [*]: the exception that escapes them, if any,
     the files they leave and what they print and log *)
  all_schemas : FS -> option string * FS * list Event;
  (* [send_alert(filename, target_addr, alert_url)] on this disk: the
     exception it raises, if any, and the files it leaves *)
  send_alert : string -> string -> string -> FS -> option Raised * FS
}.

(** Modelled from the spec: the statements [selected.select()] and
    [selected.fk_checks(v)] of the database object; module [schema] is
    not among the sources.  The spec names them [USE <db>;] and the
    [FOREIGN_KEY_CHECKS] toggle, whose text [send_alert] spells out. *)
Definition select (o : SchemaObject) : string :=
  "USE " +:+ selected_name o +:+ ";".

Definition fk_checks (v : bool) : string :=
  if v then "SET FOREIGN_KEY_CHECKS = 1;" else "SET FOREIGN_KEY_CHECKS = 0;".

(** ** [PatchBuffer] *)

Inductive Kind : Type := Table | View | Trigger | Procedure.

(** Every [write] is recorded with the statement of [app] that issued
    it; the text of the buffer is the concatenation of the data. *)
Inductive Origin : Type :=
| OSelect
| OFkChecks (v : bool)
| OBlock (k : Kind).

Record Ctx : Type := {
  app_version : string;
  ctx_type : string;
  ctx_created : string;
  server_version : string;
  target_host : string;
  target_port : string;
  target_database : string
}.

Record PatchBuffer : Type := {
  buffer : list (Origin * string);
  name : string;
  filters : list (string -> string);
  ctx : Ctx;
  pb_version_filename : bool;
  modified : bool
}.

Definition APPLICATION_VERSION : string := "1.0.0".
Definition APPLICATION_NAME : string := "Schema Sync".

(** [PATCH_TPL % ctx] with [ctx['data'] = data] *)
Definition PATCH_TPL (c : Ctx) (data : string) : string :=
  "--" +:+ nl +:+
  "-- Schema Sync " +:+ app_version c +:+ " " +:+ ctx_type c +:+ nl +:+
  "-- Created: " +:+ ctx_created c +:+ nl +:+
  "-- Server Version: " +:+ server_version c +:+ nl +:+
  "-- Apply To: " +:+ target_host c +:+ ":" +:+ target_port c +:+ "/"
     +:+ target_database c +:+ nl +:+
  "--" +:+ nl +:+ nl +:+ data.

Definition new_buffer (nm : string) (fl : list (string -> string)) (c : Ctx)
  (vf : bool) : PatchBuffer :=
  {| buffer := []; name := nm; filters := fl; ctx := c;
     pb_version_filename := vf; modified := false |}.

Definition write (b : PatchBuffer) (o : Origin) (data : string) : PatchBuffer :=
  {| buffer := buffer b ++ [(o, data)]; name := name b; filters := filters b;
     ctx := ctx b; pb_version_filename := pb_version_filename b;
     modified := true |}.

Definition getvalue (b : PatchBuffer) : string :=
  fold_right String.append EmptyString (map snd (buffer b)).

Definition rename (b : PatchBuffer) (nm : string) : PatchBuffer :=
  {| buffer := buffer b; name := nm; filters := filters b; ctx := ctx b;
     pb_version_filename := pb_version_filename b; modified := modified b |}.

(** [for f in self.filters: data = f(data)] *)
Definition apply_filters (fl : list (string -> string)) (d : string) : string :=
  fold_left (fun d f => f d) fl d.

(** What [save] leaves behind: its return value, or the text of the
    [OSError] raised by [open], [fh.write] or [fh.close]; the buffer
    (its name may have been versioned) and the disk. *)
Inductive Saved : Type :=
| SaveReturn (ret : bool) (b : PatchBuffer) (fs : FS)
| SaveOSError (err : string) (b : PatchBuffer) (fs : FS).

Definition save (e : Env) (b : PatchBuffer) (fs : FS) : Saved :=
  let data := getvalue b in
  if negb (py_truthy data) then SaveReturn false b fs
  else
    let b1 := if pb_version_filename b then rename b (versioned e fs (name b))
              else b in
    if can_open e (name b1) then
      let data1 := apply_filters (filters b1) data in
      match fh_write e (name b1) (PATCH_TPL (ctx b1) data1) with
      | None => SaveReturn true b1 (<[name b1 := PATCH_TPL (ctx b1) data1]> fs)
      | Some torn => SaveOSError (strerror e (name b1)) b1 (<[name b1 := torn]> fs)
      end
    else SaveOSError (strerror e (name b1)) b1 fs.

(** [os.remove(n)] and [os.unlink(n)]: the file is removed, or an
    [OSError] is raised, as it is for a file that is not there. *)
Definition os_remove (e : Env) (n : string) (fs : FS) : string + FS :=
  if bool_decide (is_Some (fs !! n)) && can_unlink e n then inr (delete n fs)
  else inl (strerror e n).

(** [delete]: unlink the file when it is there *)
Definition pb_delete (e : Env) (b : PatchBuffer) (fs : FS) : string + FS :=
  if bool_decide (is_Some (fs !! name b)) then os_remove e (name b) fs
  else inr fs.

(** ** The output filters of [app] *)

Definition filter_multi_space (d : string) : string :=
  str (re_sub REGEX_MULTI_SPACE [SP] (text d)).
Definition filter_distant_semicolon (d : string) : string :=
  str (re_sub REGEX_DISTANT_SEMICOLIN [SEMI] (text d)).
Definition filter_semicolon_newline (d : string) : string :=
  str (re_sub REGEX_SEMICOLON_EXPLODE_TO_NEWLINE [SEMI; LF] (text d)).

Definition app_filters : list (string -> string) :=
  [filter_multi_space; filter_distant_semicolon; filter_semicolon_newline].

(** ** [app]

    A run starts on the files [fs] and ends with an outcome, the files
    it leaves, the directories it has made, what it has printed and
    logged, and the two buffers once they exist. *)

Inductive Outcome : Type :=
| Return (code : Z)
| Raise (exn : string).

Record Run : Type := {
  outcome : Outcome;
  disk : FS;
  made_dirs : list string;
  events : list Event;
  buffers : option (PatchBuffer * PatchBuffer)    (* p_buffer, r_buffer *)
}.

(** The state a run threads from one statement to the next *)
Record World : Type := {
  w_disk : FS;
  w_dirs : list string;
  w_events : list Event
}.

Definition on_disk (fs : FS) (w : World) : World :=
  {| w_disk := fs; w_dirs := w_dirs w; w_events := w_events w |}.

Definition note (ev : Event) (w : World) : World :=
  {| w_disk := w_disk w; w_dirs := w_dirs w; w_events := w_events w ++ [ev] |}.

Definition say (msg : string) (w : World) : World := note (Print msg) w.

Definition mkdir (d : string) (w : World) : World :=
  {| w_disk := w_disk w; w_dirs := w_dirs w ++ [d]; w_events := w_events w |}.

Definition ends (oc : Outcome) (bufs : option (PatchBuffer * PatchBuffer))
  (w : World) : Run :=
  {| outcome := oc; disk := w_disk w; made_dirs := w_dirs w;
     events := w_events w; buffers := bufs |}.

(** *** Logging

    [logging.basicConfig(filename=...)] does nothing when the root
    logger has a handler already; otherwise it installs a
    [FileHandler] that opens the log file for appending.  Every record
    of the run goes to the handlers of the root logger, whose level is
    [INFO].  A file goes by the path [app] makes for it; [FileHandler]
    opens the absolute form of that path, which names the same file. *)

Inductive Handlers : Type :=
| Preset                   (* the handlers the root logger had *)
| LogFile (f : string).    (* the [FileHandler] of [basicConfig] *)

Definition levelname (l : Level) : string :=
  match l with
  | ERROR => "ERROR"
  | WARNING => "WARNING"
  | INFO => "INFO"
  end.

(** [format='[%(levelname)s  %(asctime)s] %(message)s'], then the
    terminator of the handler *)
Definition format_record (e : Env) (n : nat) (l : Level) (msg : string) : string :=
  "[" +:+ levelname l +:+ "  " +:+ asctime e n +:+ "] " +:+ msg +:+ nl.

Definition emit (e : Env) (h : Handlers) (n : nat) (l : Level) (msg : string)
  (fs : FS) : FS :=
  match h with
  | Preset => preset_emit e l msg fs
  | LogFile f =>
      <[f := default EmptyString (fs !! f) +:+ format_record e n l msg]> fs
  end.

Definition log_event (l : Level) (msg : string) : Event :=
  match l with
  | ERROR => LogError msg
  | WARNING => LogWarning msg
  | INFO => LogInfo msg
  end.

(** [logging.error(msg)], [logging.info(msg)], [logger.warning(msg)] *)
Definition log (e : Env) (h : Handlers) (l : Level) (msg : string) (w : World)
  : World :=
  note (log_event l msg)
    (on_disk (emit e h (length (w_events w)) l msg (w_disk w)) w).

(** Opening a file for appending creates it when it is not there *)
Definition touch (f : string) (fs : FS) : FS :=
  match fs !! f with
  | Some _ => fs
  | None => <[f := EmptyString]> fs
  end.

(** *** Paths *)

(** [os.path.isabs(p)] on a POSIX system *)
Definition isabs (p : string) : bool :=
  match p with
  | String c _ => Ascii.eqb c (chr 47)
  | EmptyString => false
  end.

(** [os.path.join(a, b)] on a POSIX system *)
Definition ends_with_slash (a : string) : bool :=
  match rev (text a) with
  | c :: _ => Ascii.eqb c (chr 47)
  | [] => false
  end.

Definition path_join (a b : string) : string :=
  match b with
  | String c _ =>
      if Ascii.eqb c (chr 47) then b
      else if negb (py_truthy a) || ends_with_slash a then a +:+ b
      else a +:+ "/" +:+ b
  | EmptyString =>
      if negb (py_truthy a) || ends_with_slash a then a else a +:+ "/"
  end.

Definition py_truthy_opt (s : option string) : bool :=
  match s with Some u => py_truthy u | None => false end.

Definition LOG_FILENAME : string := "schemasync.log".

(** Is [log_directory] given and a directory; the log goes below the
    output directory otherwise. *)
Definition log_directory_usable (o : Options) (e : Env) : bool :=
  match log_directory o with
  | Some d => py_truthy d && isdir e d
  | None => false
  end.

Definition log_directory_of (o : Options) (e : Env) : string :=
  if log_directory_usable o e then default EmptyString (log_directory o)
  else output_directory o.

Definition logs_directory (o : Options) (e : Env) : string :=
  path_join (log_directory_of o e) "logs".

(** [os.path.join(log_directory, 'logs', LOG_FILENAME)] *)
Definition log_file (o : Options) (e : Env) : string :=
  path_join (logs_directory o e) LOG_FILENAME.

(** *** The checks at the head of [app]

    One URL: the message of the [logging.error] that ends the run, or
    the name of the database.  [Side] and [side] are [Source] and
    [source], or [Target] and [target]. *)
Definition check_url (e : Env) (Side side url : string) : string + string :=
  if negb (py_truthy url) then inl (Side +:+ " database URL not provided. Exiting.")
  else
    match parse_database_url e url with
    | None => inl ("Invalid " +:+ side +:+ " database URL format. Exiting.")
    | Some info =>
        if negb (String.eqb (protocol info) "mysql")
        then inl (Side +:+ " database must be MySQL. Exiting.")
        else
          match db info with
          | None => inl (Side +:+ " database name not provided. Exiting.")
          | Some d => inr d
          end
    end.

(** The handlers of the root logger after [basicConfig] *)
Definition handlers (o : Options) (e : Env) : Handlers :=
  if root_has_handlers e then Preset else LogFile (log_file o e).

(** The world after the directories and the log file have been seen to *)
Definition prepared (o : Options) (e : Env) (fs : FS) : World :=
  let w0 := {| w_disk := fs; w_dirs := []; w_events := [] |} in
  let w1 := if py_truthy_opt (log_directory o) && negb (log_directory_usable o e)
            then say ("Log directory does not exist, writing log to "
                      +:+ output_directory o) w0
            else w0 in
  let w2 := if isdir e (logs_directory o e) then w1
            else mkdir (logs_directory o e) w1 in
  if root_has_handlers e then w2
  else on_disk (touch (log_file o e) (w_disk w2)) w2.

(** From the first statement of [app] to the end of the branch for two
    URLs that name the database [*]: the run has ended, or goes on to
    build the two [SchemaObject]s. *)
Inductive Front : Type :=
| Stop (r : Run)
| Go (h : Handlers) (w : World).

Definition front (o : Options) (e : Env) (fs : FS) : Front :=
  let w0 := {| w_disk := fs; w_dirs := []; w_events := [] |} in
  if negb (isabs (output_directory o)) then
    Stop (ends (Return 1) None
            (say "Error: Output directory must be an absolute path. Quiting." w0))
  else if negb (isdir e (output_directory o)) then
    Stop (ends (Return 1) None
            (say "Error: Output directory does not exist. Quiting." w0))
  else
    let w1 := if py_truthy_opt (log_directory o) && negb (log_directory_usable o e)
              then say ("Log directory does not exist, writing log to "
                        +:+ output_directory o) w0
              else w0 in
    if negb (isdir e (logs_directory o e)) && negb (can_makedirs e (logs_directory o e))
    then Stop (ends (Raise "OSError") None w1)
    else if negb (root_has_handlers e) && negb (can_open e (log_file o e))
    then Stop (ends (Raise "OSError") None
                 (if isdir e (logs_directory o e) then w1
                  else mkdir (logs_directory o e) w1))
    else
      let h := handlers o e in
      let w := prepared o e fs in
      match check_url e "Source" "source" (sourcedb o) with
      | inl msg => Stop (ends (Return 1) None (log e h ERROR msg w))
      | inr source_db =>
          match check_url e "Target" "target" (targetdb o) with
          | inl msg => Stop (ends (Return 1) None (log e h ERROR msg w))
          | inr target_db =>
              if String.eqb source_db "*" && String.eqb target_db "*" then
                let '(exn, fs1, evs) := all_schemas e (w_disk w) in
                Stop (ends (match exn with
                            | Some x => Raise x
                            | None => Return 1
                            end) None
                        {| w_disk := fs1; w_dirs := w_dirs w;
                           w_events := w_events w ++ evs |})
              else Go h w
          end
      end.

(** The version gate: [compare_version(obj.version, '5.0.0') < 0] *)
Definition version_too_old (o : SchemaObject) : bool :=
  py_lt0 (compare_version (version o) "5.0.0").

(** The table filter handed to [sync_schema]; [None] is the [KeyError]
    of [d[key]] on a row without that column. *)
Definition tables_key (e : Env) : string :=
  "Tables_in_" +:+ selected_name (target_obj e).

Definition effective_filter_tables (o : Options) (e : Env)
  : option (option (list string)) :=
  if only_sync_exists_tables o then
    Some <$> mapM (fun d : gmap string string => d !! tables_key e) (show_tables e)
  else Some (filter_tables o).

Record LoopState : Type := {
  st_p : PatchBuffer;
  st_r : PatchBuffer;
  db_selected : bool
}.

(** The loops over tables and over procedures open with the
    [FOREIGN_KEY_CHECKS] switch after [USE]; those over views and
    triggers with [USE] alone. *)
Definition opens_with_fk_checks (k : Kind) : bool :=
  match k with
  | Table | Procedure => true
  | View | Trigger => false
  end.

Definition write_both (st : LoopState) (o : Origin) (p r : string) : LoopState :=
  {| st_p := write (st_p st) o p; st_r := write (st_r st) o r;
     db_selected := db_selected st |}.

Definition select_db (tgt : SchemaObject) (k : Kind) (st : LoopState) : LoopState :=
  if db_selected st then st
  else
    let st1 := write_both st OSelect (select tgt +:+ nl) (select tgt +:+ nl) in
    let st2 := if opens_with_fk_checks k
               then write_both st1 (OFkChecks false)
                      (fk_checks false +:+ nl) (fk_checks false +:+ nl)
               else st1 in
    {| st_p := st_p st2; st_r := st_r st2; db_selected := true |}.

(** One turn of a [for patch, revert in ...] loop *)
Definition loop_body (tgt : SchemaObject) (k : Kind) (st : LoopState)
  (pr : string * string) : LoopState :=
  let '(patch, revert) := pr in
  if py_truthy patch && py_truthy revert then
    write_both (select_db tgt k st) (OBlock k) (patch +:+ nl) (revert +:+ nl)
  else st.

Definition run_loop (tgt : SchemaObject) (k : Kind) (prs : Pairs)
  (st : LoopState) : LoopState :=
  fold_left (loop_body tgt k) prs st.

(** [if db_selected:] after the loop over tables *)
Definition close_fk_checks (st : LoopState) : LoopState :=
  if db_selected st
  then write_both st (OFkChecks true) (fk_checks true +:+ nl) (fk_checks true +:+ nl)
  else st.

Definition make_ctx (e : Env) (ty : string) : Ctx :=
  {| app_version := APPLICATION_VERSION; ctx_type := ty;
     ctx_created := created e;
     server_version := version (target_obj e);
     target_host := host (target_obj e);
     target_port := port (target_obj e);
     target_database := selected_name (target_obj e) |}.

Definition initial_state (o : Options) (e : Env) : LoopState :=
  let '(p_fname, r_fname) :=
    create_pnames (selected_name (target_obj e)) (tag o) (today e) (no_date o) in
  {| st_p := new_buffer (path_join (output_directory o) p_fname) app_filters
               (make_ctx e "Patch Script") (version_filename o);
     st_r := new_buffer (path_join (output_directory o) r_fname) app_filters
               (make_ctx e "Revert Script") (version_filename o);
     db_selected := false |}.

(** The four loops, in program order *)
Definition fill_buffers (o : Options) (e : Env) (ft : option (list string))
  : LoopState :=
  let tgt := target_obj e in
  let st1 := run_loop tgt Table (sync_schema e o ft) (initial_state o e) in
  let st2 := close_fk_checks st1 in
  let st3 := run_loop tgt View (sync_views e (filter_views o)) st2 in
  let st4 := run_loop tgt Trigger (sync_triggers e (filter_triggers o)) st3 in
  run_loop tgt Procedure (sync_procedures e (filter_procedures o)) st4.

Definition url_of (o : SchemaObject) : string :=
  "mysql://" +:+ host o +:+ ":" +:+ port o +:+ "/" +:+ selected_name o.

Definition in_sync_message (e : Env) : string :=
  "No migration scripts written. " +:+ url_of (source_obj e) +:+ " and "
  +:+ url_of (target_obj e) +:+ " were in sync.".

Definition created_message (e : Env) (p r : PatchBuffer) : string :=
  "Migration scripts created for " +:+ url_of (target_obj e) +:+ nl
  +:+ "Patch Script: " +:+ name p +:+ nl +:+ "Revert Script: " +:+ name r.

Definition version_message (side : string) (o : SchemaObject) : string :=
  APPLICATION_NAME +:+ " requires MySQL version 5.0+ (" +:+ side +:+ " is v"
  +:+ version o +:+ ")".

Definition failed_message (err : string) : string :=
  "Failed writing migration scripts. " +:+ err.

(** The [except OSError as e] handler: both scripts are deleted, the
    failure is logged and [app] returns 1.  An [OSError] raised by
    [delete] escapes. *)
Definition write_failed (e : Env) (h : Handlers) (err : string) (w : World)
  (p r : PatchBuffer) : Run :=
  match pb_delete e p (w_disk w) with
  | inl _ => ends (Raise "OSError") (Some (p, r)) w
  | inr fs1 =>
      match pb_delete e r fs1 with
      | inl _ => ends (Raise "OSError") (Some (p, r)) (on_disk fs1 w)
      | inr fs2 =>
          ends (Return 1) (Some (p, r))
            (log e h ERROR (failed_message err) (on_disk fs2 w))
      end
  end.

(** From [if not p_buffer.modified:] to the end of [app] *)
Definition finish (o : Options) (e : Env) (h : Handlers) (w : World)
  (st : LoopState) : Run :=
  let p := st_p st in
  let r := st_r st in
  if negb (modified p) then
    ends (Return 0) (Some (p, r)) (say (in_sync_message e) w)
  else
    match save e p (w_disk w) with
    | SaveOSError err p1 fs1 => write_failed e h err (on_disk fs1 w) p1 r
    | SaveReturn _ p1 fs1 =>
        match save e r fs1 with
        | SaveOSError err r1 fs2 => write_failed e h err (on_disk fs2 w) p1 r1
        | SaveReturn _ r1 fs2 =>
            let w1 := log e h INFO (created_message e p1 r1) (on_disk fs2 w) in
            if bool_decide (is_Some (w_disk w1 !! name p1)) && modified p1
               && py_truthy_opt (alert_url o)
            then
              let target_addr :=
                host (target_obj e) +:+ ":" +:+ port (target_obj e) +:+ "/"
                +:+ selected_name (target_obj e) in
              let url := default EmptyString (alert_url o) in
              let w2 := log e h WARNING "alerting..." w1 in
              let '(exn, fs3) := send_alert e (name p1) target_addr url (w_disk w2) in
              let w3 := on_disk fs3 (note (Alert (name p1) target_addr url) w2) in
              match exn with
              | Some (OSError err) => write_failed e h err w3 p1 r1
              | Some (Exception x) => ends (Raise x) (Some (p1, r1)) w3
              | None =>
                  if no_delete_result o then ends (Return 0) (Some (p1, r1)) w3
                  else
                    match os_remove e (name p1) (w_disk w3) with
                    | inl err => write_failed e h err w3 p1 r1
                    | inr fs4 =>
                        match os_remove e (name r1) fs4 with
                        | inl err => write_failed e h err (on_disk fs4 w3) p1 r1
                        | inr fs5 =>
                            ends (Return 0) (Some (p1, r1))
                              (log e h INFO ("deleted " +:+ name r1)
                                 (log e h INFO ("deleted " +:+ name p1)
                                    (on_disk fs5 w3)))
                        end
                    end
              end
            else ends (Return 0) (Some (p1, r1)) w1
        end
    end.

(** From the two [SchemaObject]s to the end of [app] *)
Definition diff_and_save (o : Options) (e : Env) (h : Handlers) (w : World) : Run :=
  if version_too_old (source_obj e) then
    ends (Return 1) None (log e h ERROR (version_message "source" (source_obj e)) w)
  else if version_too_old (target_obj e) then
    ends (Return 1) None (log e h ERROR (version_message "target" (target_obj e)) w)
  else
    match effective_filter_tables o e with
    | None => ends (Raise "KeyError") None w
    | Some ft => finish o e h w (fill_buffers o e ft)
    end.

Definition app (o : Options) (e : Env) (fs : FS) : Run :=
  match front o e fs with
  | Stop r => r
  | Go h w => diff_and_save o e h w
  end.

(** ** The table phase of the synchronizer *)

Module SpecModel.

(** Modelled from the spec: the table phase of the SchemaSynchronizer
    and the TableSynchronizer it drives (sections 4.3 and 4.5); module
    [syncdb], which holds [sync_schema], is not among the sources.  A
    table is its name and its captured definition; a block is a list of
    statements.  Names are visited in the order the snapshots list
    them. *)

Record TableDef : Type := {
  t_name : string;
  t_definition : string
}.

Inductive Stmt : Type :=
| CreateTable (t : TableDef)
| DropTable (t : string)
| AlterTable (t : string) (old_definition new_definition : string).

Abbreviation Block := (list Stmt).

Definition is_existence_change (s : Stmt) : bool :=
  match s with
  | CreateTable _ | DropTable _ => true
  | AlterTable _ _ _ => false
  end.

Definition lookup_table (n : string) (db : list TableDef) : option TableDef :=
  List.find (fun t => String.eqb (t_name t) n) db.

Definition mem (n : string) (l : list string) : bool :=
  List.existsb (String.eqb n) l.

(** One [(sourceTable?, targetTable?)] pair.  Present only in source,
    [existing_only=false]: create, undone by a drop.  Present only in
    target: drop, undone by the captured definition, and a no-op when
    [existing_only=true].  Present in both: one block of changes when
    the definitions differ.  For a table present only in the source
    with [existing_only=true] the spec lists no behaviour: what the
    synchronizer yields then is left open, as [source_only]. *)
Definition table_sync (source_only : TableDef -> Block * Block)
  (existing_only : bool) (s t : option TableDef) : Block * Block :=
  match s, t with
  | Some a, None =>
      if existing_only then source_only a
      else ([CreateTable a], [DropTable (t_name a)])
  | None, Some b =>
      if existing_only then ([], [])
      else ([DropTable (t_name b)], [CreateTable b])
  | Some a, Some b =>
      if String.eqb (t_definition a) (t_definition b) then ([], [])
      else ([AlterTable (t_name a) (t_definition b) (t_definition a)],
            [AlterTable (t_name a) (t_definition a) (t_definition b)])
  | None, None => ([], [])
  end.

(** The names considered: all names of either snapshot, restricted by
    the filter when one is supplied. *)
Definition considered (src tgt : list TableDef) (flt : option (list string))
  : list string :=
  let ns := map t_name src in
  let all := ns ++ List.filter (fun n => negb (mem n ns)) (map t_name tgt) in
  match flt with
  | None => all
  | Some f => List.filter (fun n => mem n f) all
  end.

Definition is_empty_pair (pr : Block * Block) : bool :=
  match pr with
  | ([], []) => true
  | _ => false
  end.

(** Pairs where both sides are empty are omitted. *)
Definition sync_tables (source_only : TableDef -> Block * Block)
  (src tgt : list TableDef) (flt : option (list string))
  (existing_only : bool) : list (Block * Block) :=
  List.filter (fun pr => negb (is_empty_pair pr))
    (map (fun n => table_sync source_only existing_only
                     (lookup_table n src) (lookup_table n tgt))
       (considered src tgt flt)).

(** The synchronizer that creates a table present only in the source
    whatever the mode *)
Definition creating (a : TableDef) : Block * Block :=
  ([CreateTable a], [DropTable (t_name a)]).

Definition render_stmt (s : Stmt) : string :=
  match s with
  | CreateTable t => "CREATE TABLE " +:+ t_name t +:+ " " +:+ t_definition t +:+ ";"
  | DropTable t => "DROP TABLE " +:+ t +:+ ";"
  | AlterTable t _ new => "ALTER TABLE " +:+ t +:+ " " +:+ new +:+ ";"
  end.

Definition render (b : Block) : string :=
  fold_right (fun s acc => render_stmt s +:+ acc) EmptyString b.

Definition render_pairs (l : list (Block * Block)) : Pairs :=
  map (fun pr => (render (fst pr), render (snd pr))) l.

End SpecModel.

(** ** Vocabulary of the statements *)

(** The first position at which two component arrays differ, within
    the length of the shorter one. *)
Fixpoint first_difference (xs ys : list string) : option (string * string) :=
  match xs, ys with
  | x :: xs', y :: ys' =>
      if String.eqb x y then first_difference xs' ys' else Some (x, y)
  | _, _ => None
  end.

(** The pairs that pass [if patch and revert:] *)
Definition both_nonempty (pr : string * string) : bool :=
  py_truthy (fst pr) && py_truthy (snd pr).

Definition written (prs : Pairs) : Pairs := List.filter both_nonempty prs.

Definition kind_eqb (a b : Kind) : bool :=
  match a, b with
  | Table, Table | View, View | Trigger, Trigger | Procedure, Procedure => true
  | _, _ => false
  end.

Definition origin_eqb (a b : Origin) : bool :=
  match a, b with
  | OSelect, OSelect => true
  | OFkChecks u, OFkChecks v => Bool.eqb u v
  | OBlock j, OBlock k => kind_eqb j k
  | _, _ => false
  end.

(** The data written from the statement [o], in the order written *)
Definition written_from (o : Origin) (buf : list (Origin * string)) : list string :=
  map snd (List.filter (fun x => origin_eqb (fst x) o) buf).

(** The kinds of the change blocks of a buffer, in the order written *)
Definition block_kinds (buf : list (Origin * string)) : list Kind :=
  omap (fun x => match fst x with OBlock k => Some k | _ => None end) buf.

(** The two scripts of a run and the side of a pair each one receives *)
Inductive Script : Type := Patch | Revert.

Definition script_buffer (s : Script) (st : LoopState) : list (Origin * string) :=
  match s with
  | Patch => buffer (st_p st)
  | Revert => buffer (st_r st)
  end.

Definition script_side (s : Script) : string * string -> string :=
  match s with
  | Patch => fst
  | Revert => snd
  end.

(** What the first written pair of a loop puts in front of itself when
    no database has been selected yet *)
Definition opening (tgt : SchemaObject) (k : Kind) : list (Origin * string) :=
  (OSelect, select tgt +:+ nl)
  :: (if opens_with_fk_checks k then [(OFkChecks false, fk_checks false +:+ nl)]
      else []).

Definition blocks (k : Kind) (side : string * string -> string) (prs : Pairs)
  : list (Origin * string) :=
  map (fun pr => (OBlock k, side pr +:+ nl)) prs.

Definition nonempty {A : Type} (l : list A) : bool :=
  match l with [] => false | _ => true end.

(** What each synchronizer yields during the run *)
Definition yields (o : Options) (e : Env) (ft : option (list string)) (k : Kind)
  : Pairs :=
  match k with
  | Table => sync_schema e o ft
  | View => sync_views e (filter_views o)
  | Trigger => sync_triggers e (filter_triggers o)
  | Procedure => sync_procedures e (filter_procedures o)
  end.

Definition written_of (o : Options) (e : Env) (ft : option (list string))
  (k : Kind) : Pairs :=
  written (yields o e ft k).

(** The content of a buffer after the four loops, given the pairs
    [wt], [wv], [wg], [wp] that were written for each kind *)
Definition layout (tgt : SchemaObject) (side : string * string -> string)
  (wt wv wg wp : Pairs) : list (Origin * string) :=
  (if nonempty wt then opening tgt Table else [])
  ++ blocks Table side wt
  ++ (if nonempty wt then [(OFkChecks true, fk_checks true +:+ nl)] else [])
  ++ (if nonempty wt || negb (nonempty wv) then [] else opening tgt View)
  ++ blocks View side wv
  ++ (if nonempty wt || nonempty wv || negb (nonempty wg) then []
      else opening tgt Trigger)
  ++ blocks Trigger side wg
  ++ (if nonempty wt || nonempty wv || nonempty wg || negb (nonempty wp) then []
      else opening tgt Procedure)
  ++ blocks Procedure side wp.

(** The replacement of one character of a tag, and the collapse of each
    run of underscores into one. *)
Definition replace_invalid (c : ascii) : ascii :=
  if is_tag_char c then c else USCORE.

Fixpoint squeeze_underscores (s : list ascii) : list ascii :=
  match s with
  | c :: t =>
      if is_underscore c then
        match t with
        | c2 :: _ => if is_underscore c2 then squeeze_underscores t
                     else c :: squeeze_underscores t
        | [] => [c]
        end
      else c :: squeeze_underscores t
  | [] => []
  end.

Definition no_existence_change (b : SpecModel.Block) : bool :=
  forallb (fun s => negb (SpecModel.is_existence_change s)) b.

(** The rows [SHOW TABLES] answers for tables of these names *)
Definition rows_of (key : string) (names : list string) : list (gmap string string) :=
  map (fun n => {[ key := n ]}) names.

Definition head_space (l : list ascii) : bool :=
  match l with
  | c :: _ => is_space c
  | [] => false
  end.

(** No two adjacent white-space characters *)
Fixpoint no_space_run (l : list ascii) : bool :=
  match l with
  | c :: t => negb (is_space c && head_space t) && no_space_run t
  | [] => true
  end.

Definition head_is (x : ascii) (l : list ascii) : bool :=
  match l with
  | c :: _ => Ascii.eqb c x
  | [] => false
  end.

(** A semicolon followed by white space is followed by a line feed *)
Fixpoint semicolons_end_lines (l : list ascii) : bool :=
  match l with
  | c :: t =>
      implb (Ascii.eqb c SEMI && head_space t) (head_is LF t)
      && semicolons_end_lines t
  | [] => true
  end.

(** The characters that are not white space, in order *)
Definition ink (l : list ascii) : list ascii :=
  List.filter (fun c => negb (is_space c)) l.

(** The normalization of the output, in the words of the spec: runs of
    white space are collapsed, and each statement ends with a
    semicolon followed by a line feed.

    Every run of two or more white-space characters is replaced by one
    space; [in_run] tells that the space of the current run is out. *)
Fixpoint collapse_runs (in_run : bool) (l : list ascii) : list ascii :=
  match l with
  | c :: t =>
      if is_space c then
        if in_run then collapse_runs true t
        else if head_space t then SP :: collapse_runs true t
        else c :: collapse_runs false t
      else c :: collapse_runs false t
  | [] => []
  end.

(** Is this the semicolon that ends the text, a final line feed aside *)
Definition last_semicolon (l : list ascii) : bool :=
  match l with
  | [c] => Ascii.eqb c SEMI
  | [c; n] => Ascii.eqb c SEMI && Ascii.eqb n LF
  | _ => false
  end.

(** The white space in front of the semicolon that ends the text is
    removed. *)
Fixpoint close_last_statement (l : list ascii) : list ascii :=
  match l with
  | c :: t =>
      if is_space c && last_semicolon (drop (span is_space t) t)
      then drop (span is_space t) t
      else c :: close_last_statement t
  | [] => []
  end.

(** The white space that follows a semicolon is replaced by one line
    feed; [skipping] tells that such white space is being passed
    over. *)
Fixpoint break_lines (skipping : bool) (l : list ascii) : list ascii :=
  match l with
  | c :: t =>
      if is_space c then
        if skipping then break_lines true t else c :: break_lines false t
      else if Ascii.eqb c SEMI && head_space t then c :: LF :: break_lines true t
      else c :: break_lines false t
  | [] => []
  end.

Definition normalise (l : list ascii) : list ascii :=
  break_lines false (close_last_statement (collapse_runs false l)).

(** ** [send_msg_2_fei_shu]

    What is handed to [send_msg], in order: the whole message under
    the given title, or the batches, the batch numbered [i] going
    under the title followed by the batch mark for [i].  The loop runs
    on fuel; indices are Python integers. *)

(** [s.rfind(c)]: the index of the last [c] in [s], or -1 *)
Fixpoint rfind_from (c : ascii) (l : list ascii) (i : Z) (found : Z) : Z :=
  match l with
  | [] => found
  | x :: t => rfind_from c t (i + 1) (if Ascii.eqb x c then i else found)
  end.

Definition rfind (c : ascii) (l : list ascii) : Z := rfind_from c l 0 (-1).

(** [s[a:b]] for indices that are not negative *)
Definition slice (l : list ascii) (a b : Z) : list ascii :=
  take (Z.to_nat (b - a)) (drop (Z.to_nat a) l).

Inductive Post : Type :=
| Whole (content : list ascii)
| Batch (i : Z) (content : list ascii).

Definition post_content (p : Post) : list ascii :=
  match p with Whole c | Batch _ c => c end.

Record BatchState : Type := {
  b_i : Z;
  b_begin : Z;
  b_end : Z;
  b_last_new_line_idx : Z
}.

Definition batch_turn (sep : Z) (msg : list ascii) (st : BatchState)
  : Post * BatchState :=
  let end0 := if b_i st =? 1 then b_end st else b_begin st + sep in
  let new_line_idx := rfind LF (take (Z.to_nat end0) msg) in
  let end1 := if negb (new_line_idx =? -1)
                 && negb (new_line_idx =? b_last_new_line_idx st)
              then new_line_idx + 1 else end0 + 1 in
  (Batch (b_i st) (slice msg (b_begin st) end1),
   {| b_i := b_i st + 1; b_begin := end1; b_end := end1;
      b_last_new_line_idx := new_line_idx |}).

Fixpoint batch_loop (fuel : nat) (sep : Z) (msg : list ascii) (st : BatchState)
  : option (list Post) :=
  if b_end st <? Z.of_nat (length msg) then
    match fuel with
    | O => None
    | S f =>
        let '(p, st') := batch_turn sep msg st in
        cons p <$> batch_loop f sep msg st'
    end
  else Some [].

Definition send_batched (sep : Z) (msg : list ascii) : option (list Post) :=
  if Z.of_nat (length msg) >? sep then
    batch_loop (2 * length msg + 2) sep msg
      {| b_i := 1; b_begin := 0; b_end := 0 + sep; b_last_new_line_idx := 0 |}
  else Some [Whole msg].

Definition send_msg_2_fei_shu (msg : list ascii) : option (list Post) :=
  send_batched 20000 msg.

(** The last line feed among the first [X] characters *)
Definition last_lf (msg : list ascii) (X : nat) : Z := rfind LF (take X msg).

Definition post_index (p : Post) : option Z :=
  match p with Whole _ => None | Batch i _ => Some i end.

(** What holds each time the loop tests [end < msg_len] *)
Definition batch_inv (sep : Z) (msg : list ascii) (st : BatchState) : Prop :=
  0 <= b_begin st /\ 1 <= b_i st
  /\ (b_i st = 1 ->
      b_begin st = 0 /\ b_end st = sep /\ sep < Z.of_nat (length msg))
  /\ (b_i st <> 1 -> b_end st = b_begin st)
  /\ (last_lf msg (Z.to_nat (b_begin st)) = b_last_new_line_idx st
      \/ last_lf msg (Z.to_nat (b_begin st)) = b_begin st - 1
      \/ last_lf msg (Z.to_nat (b_begin st)) = -1).

(** What decreases at each turn *)
Definition batch_measure (msg : list ascii) (st : BatchState) : nat :=
  2 * (length msg - Z.to_nat (b_begin st))
  + (if b_last_new_line_idx st =? b_begin st - 1 then 0 else 1).



(** ** [versioned]

    [files] stands for what [glob.glob(name + '*' + ext)] answers on
    the disk of the run.  [None] is the [ValueError] of [int]. *)

Definition DOT : ascii := chr 46.
Definition SLASH : ascii := chr 47.
Definition is_dot (c : ascii) : bool := Ascii.eqb c DOT.

(** [os.path.splitext(p)] on a POSIX system: the extension starts at
    the last dot, when that dot stands after the last slash and after
    a character of the file name that is not a dot. *)
Definition splitext (p : list ascii) : list ascii * list ascii :=
  let sepIndex := rfind SLASH p in
  let dotIndex := rfind DOT p in
  if (sepIndex <? dotIndex)
     && existsb (fun c => negb (is_dot c)) (slice p (sepIndex + 1) dotIndex)
  then (take (Z.to_nat dotIndex) p, drop (Z.to_nat dotIndex) p)
  else (p, []).

(** [REGEX_FILE_COUNTER = _(?P<i>[0-9]+)\.(?:[^.]+)$], anchored: the
    group [i] when the pattern matches right at the start of [s] *)
Definition match_file_counter (s : list ascii) : option (list ascii) :=
  match s with
  | c :: t =>
      if Ascii.eqb c USCORE then
        let k := span is_digit t in
        match k, drop k t with
        | S _, d :: rest =>
            if is_dot d && nonempty rest
               && forallb (fun x => negb (is_dot x)) rest
            then Some (take k t) else None
        | _, _ => None
        end
      else None
  | [] => None
  end.

(** The leftmost match in [s] *)
Fixpoint search_scan (s : list ascii) : option (list ascii) :=
  match match_file_counter s with
  | Some g => Some g
  | None => match s with
            | _ :: t => search_scan t
            | [] => None
            end
  end.

(** [REGEX_FILE_COUNTER.search(x, re.I)]: the second argument of
    [search] is the position to start from, and [re.I] is 2. *)
Definition search_file_counter (x : list ascii) : option (list ascii) :=
  search_scan (drop 2 x).

(** [max] of a non-empty list of [str], ordered as [str] is: by code
    points, lexicographically *)
Definition str_max (x : string) (l : list string) : string :=
  fold_left (fun m y => if String.ltb m y then y else m) l x.

(** ['%d' % i] *)
Definition format_d (i : Z) : string := NilZero.string_of_int (Z.to_int i).

Definition versioned_from (files : list string) (filename : string)
  : option string :=
  let '(name, ext) := splitext (text filename) in
  match files with
  | [] => Some filename
  | _ :: _ =>
      match omap (fun x => search_file_counter (text x)) files with
      | c :: cs =>
          match py_int (str_max (str c) (map str cs)) with
          | Some n => Some (str name +:+ "_" +:+ format_d (n + 1) +:+ str ext)
          | None => None
          end
      | [] => Some (str name +:+ "_" +:+ format_d 1 +:+ str ext)
      end
  end.

(** A non-empty run of decimal digits *)
Definition digit_string (g : list ascii) : Prop :=
  g <> [] /\ forallb is_digit g = true.

(** A batch that is not the last one is empty, or ends with a line
    feed, or is [sep + 1] characters long. *)
Definition cut_at_line (sep : Z) (c : list ascii) : Prop :=
  c = [] \/ last c = Some LF \/ Z.of_nat (length c) = sep + 1.

(** Does the pattern match anywhere in [s] *)
Fixpoint matches_somewhere (m : matcher) (s : list ascii) : bool :=
  match m s with
  | Some _ => true
  | None => match s with
            | _ :: t => matches_somewhere m t
            | [] => false
            end
  end.

(** ** A run used to exercise the statements *)

Definition example_options : Options :=
  {| sourcedb := "mysql://root@db1:3306/shop";
     targetdb := "mysql://root@db2:3306/shop";
     version_filename := false; output_directory := "/tmp";
     log_directory := Some "/tmp"; no_date := false;
     tag := None; charset := Some "utf8";
     sync_auto_inc := false; sync_comments := false;
     filter_tables := Some ["orders"]; filter_views := None;
     filter_triggers := None; filter_procedures := None;
     only_sync_exists_tables := false; alert_url := None;
     no_delete_result := false |}.

(** The same call with a relative output directory *)
Definition relative_options : Options :=
  {| sourcedb := sourcedb example_options;
     targetdb := targetdb example_options;
     version_filename := false; output_directory := "out";
     log_directory := Some "/tmp"; no_date := false;
     tag := None; charset := Some "utf8";
     sync_auto_inc := false; sync_comments := false;
     filter_tables := Some ["orders"]; filter_views := None;
     filter_triggers := None; filter_procedures := None;
     only_sync_exists_tables := false; alert_url := None;
     no_delete_result := false |}.

(** A machine on which [/tmp] is the only directory, every file can be
    written and removed, and the root logger has no handler yet *)
Definition example_url (url : string) : option UrlInfo :=
  if String.eqb url "mysql://root@db1:3306/shop"
     || String.eqb url "mysql://root@db2:3306/shop"
  then Some {| protocol := "mysql"; db := Some "shop" |}
  else None.

Definition example_asctime (n : nat) : string := "2024-01-31 12:00:00,000".

Definition example_server (h v : string) : SchemaObject :=
  {| version := v; host := h; port := "3306"; selected_name := "shop" |}.

Definition example_env (source_version : string) (rows : list (gmap string string))
  (tables views triggers procedures : Pairs) : Env :=
  {| source_obj := example_server "db1" source_version;
     target_obj := example_server "db2" "8.0.30";
     show_tables := rows;
     sync_schema := fun _ _ => tables;
     sync_views := fun _ => views;
     sync_triggers := fun _ => triggers;
     sync_procedures := fun _ => procedures;
     today := "20240131";
     created := "Wed, Jan 31, 2024";
     versioned := fun _ n => n;
     can_open := fun _ => true;
     fh_write := fun _ _ => None;
     can_unlink := fun _ => true;
     strerror := fun n => "[Errno 13] Permission denied: '" +:+ n +:+ "'";
     isdir := String.eqb "/tmp";
     can_makedirs := fun _ => true;
     parse_database_url := example_url;
     root_has_handlers := false;
     preset_emit := fun _ _ fs => fs;
     asctime := example_asctime;
     all_schemas := fun fs => (None, fs, []);
     send_alert := fun _ _ _ fs => (None, fs) |}.

Definition example_tables : Pairs :=
  [("ALTER TABLE users MODIFY COLUMN name VARCHAR(50);",
    "ALTER TABLE users MODIFY COLUMN name VARCHAR(30);");
   (EmptyString, EmptyString)].

Definition example_views : Pairs :=
  [("CREATE VIEW v1 AS SELECT a FROM t;", "DROP VIEW v1;")].

Definition old_source_env : Env :=
  example_env "4.1.22" [] example_tables example_views [] [].

Definition one_sided_env : Env :=
  example_env "8.0.30" [] [("ALTER TABLE t DROP COLUMN c;", EmptyString)] [] [] [].

Definition example_run_env : Env :=
  example_env "8.0.30" [] example_tables example_views [] [].


Definition existing_only_options : Options :=
  {| sourcedb := sourcedb example_options;
     targetdb := targetdb example_options;
     version_filename := false; output_directory := "/tmp";
     log_directory := Some "/tmp"; no_date := false;
     tag := None; charset := Some "utf8";
     sync_auto_inc := false; sync_comments := false;
     filter_tables := Some ["orders"]; filter_views := None;
     filter_triggers := None; filter_procedures := None;
     only_sync_exists_tables := true; alert_url := None;
     no_delete_result := false |}.

Definition source_tables : list SpecModel.TableDef :=
  [ {| SpecModel.t_name := "users";
       SpecModel.t_definition := "(id INT, name VARCHAR(50))" |};
    {| SpecModel.t_name := "orders";
       SpecModel.t_definition := "(id INT)" |} ].

Definition target_tables : list SpecModel.TableDef :=
  [ {| SpecModel.t_name := "users";
       SpecModel.t_definition := "(id INT, name VARCHAR(30))" |};
    {| SpecModel.t_name := "legacy";
       SpecModel.t_definition := "(id INT)" |} ].

Definition existing_only_env : Env :=
  {| source_obj := example_server "db1" "8.0.30";
     target_obj := example_server "db2" "8.0.30";
     show_tables := rows_of "Tables_in_shop" ["users"; "legacy"];
     sync_schema := fun o ft =>
       SpecModel.render_pairs
         (SpecModel.sync_tables SpecModel.creating source_tables target_tables ft
            (only_sync_exists_tables o));
     sync_views := fun _ => [];
     sync_triggers := fun _ => [];
     sync_procedures := fun _ => [];
     today := "20240131";
     created := "Wed, Jan 31, 2024";
     versioned := fun _ n => n;
     can_open := fun _ => true;
     fh_write := fun _ _ => None;
     can_unlink := fun _ => true;
     strerror := strerror example_run_env;
     isdir := String.eqb "/tmp";
     can_makedirs := fun _ => true;
     parse_database_url := example_url;
     root_has_handlers := false;
     preset_emit := fun _ _ fs => fs;
     asctime := example_asctime;
     all_schemas := fun fs => (None, fs, []);
     send_alert := fun _ _ _ fs => (None, fs) |}.


(** * Properties *)

(** ** The definitions at work *)

Example cv1 : compare_version "4.1.22" "5.0.0" = PyBool false.
Proof. reflexivity. Qed.
Example cv2 : compare_version "05.x" "5.y" = PyBool true.
Proof. reflexivity. Qed.
Example cv3 : compare_version "5.7.x" "5.7.3" = PyInt 0.
Proof. reflexivity. Qed.
Example cv4 : re_split "5.7.30-log" = ["5"; "7"; "30"; "log"].
Proof. reflexivity. Qed.
Example cv5 : py_int " +1_000 " = Some 1000.
Proof. reflexivity. Qed.
Example cv6 : py_int "1__0" = None /\ py_int "-" = None /\ py_int EmptyString = None.
Proof. repeat split. Qed.

Example sub1 : str (re_sub REGEX_MULTI_SPACE [SP] (text "a  b   c d")) = "a b c d".
Proof. reflexivity. Qed.
Example sub2 : str (re_sub REGEX_DISTANT_SEMICOLIN [SEMI] (text "a ; b  ;")) = "a ; b;".
Proof. reflexivity. Qed.
Example sub3 : str (re_sub REGEX_SEMICOLON_EXPLODE_TO_NEWLINE [SEMI; LF] (text "a; b;  c;"))
   = str (text "a;" ++ LF :: text "b;" ++ LF :: text "c;").
Proof. reflexivity. Qed.

Example pn1 : create_pnames "shop" None "20240131" false
  = ("shop.20240131.patch.sql", "shop.20240131.revert.sql").
Proof. reflexivity. Qed.
Example pn2 : create_pnames "shop" (Some "v 1.2") "20240131" true
  = ("shop_v_1_2.20240131.patch.sql", "shop_v_1_2.20240131.revert.sql").
Proof. reflexivity. Qed.
Example pn3 : create_pnames "shop" (Some "a  b") "20240131" true
  = ("shop_a_b.20240131.patch.sql", "shop_a_b.20240131.revert.sql").
Proof. reflexivity. Qed.
Example pn4 : create_pnames "shop" (Some EmptyString) "20240131" true
  = ("shop.patch.sql", "shop.revert.sql").
Proof. reflexivity. Qed.

(** ** Version comparison *)

Section CompareVersion.

Lemma compare_arrays_first_difference (xs ys : list string) :
  compare_arrays xs ys =
    match first_difference xs ys with
    | None => PyInt 0
    | Some (cx, cy) =>
        match py_int cx, py_int cy with
        | Some a, Some b => PyBool (a =? b)
        | _, _ => PyInt 0
        end
    end.
Proof.
  revert ys; induction xs as [|x xs IH]; intros [|y ys]; simpl; try reflexivity.
  destruct (String.eqb x y); [apply IH|].
  destruct (py_int x), (py_int y); reflexivity.
Qed.

Lemma compare_arrays_sym (xs ys : list string) :
  compare_arrays xs ys = compare_arrays ys xs.
Proof.
  revert ys; induction xs as [|x xs IH]; intros [|y ys]; simpl; try reflexivity.
  rewrite (String.eqb_sym y x).
  destruct (String.eqb x y); [apply IH|].
  destruct (py_int x) as [a|], (py_int y) as [b|]; try reflexivity.
  now rewrite Z.eqb_sym.
Qed.

Lemma compare_arrays_refl (xs : list string) : compare_arrays xs xs = PyInt 0.
Proof.
  induction xs as [|x xs IH]; simpl; [reflexivity|].
  now rewrite String.eqb_refl.
Qed.

Lemma compare_arrays_num (xs ys : list string) :
  0 <= py_num (compare_arrays xs ys) <= 1.
Proof.
  rewrite compare_arrays_first_difference.
  destruct (first_difference xs ys) as [[cx cy]|]; simpl; [|lia].
  destruct (py_int cx), (py_int cy); simpl; try lia.
  destruct (_ =? _); lia.
Qed.

Lemma version_gate_never_fires (o : SchemaObject) : version_too_old o = false.
Proof.
  unfold version_too_old, py_lt0, compare_version.
  apply Z.ltb_ge, compare_arrays_num.
Qed.

End CompareVersion.

(** C1.  [compare_version] gives an equality signal only.  When the two
    arrays have no differing position within the shorter length, or a
    component at the first differing position does not parse, it
    returns the integer 0; otherwise it returns the boolean equality
    of the two parsed components.  As a number the result is 0 or 1,
    never negative, and it is the same for [(x, y)] and [(y, x)], so it
    never places one version below or above the other. *)
Theorem compare_version_equality_signal (x y : string) :
  compare_version x y =
    match first_difference (re_split x) (re_split y) with
    | None => PyInt 0
    | Some (cx, cy) =>
        match py_int cx, py_int cy with
        | Some a, Some b => PyBool (a =? b)
        | _, _ => PyInt 0
        end
    end
  /\ 0 <= py_num (compare_version x y) <= 1
  /\ py_lt0 (compare_version x y) = false
  /\ py_num (compare_version x y) = py_num (compare_version y x).
Proof.
  unfold compare_version. repeat split.
  - apply compare_arrays_first_difference.
  - apply compare_arrays_num.
  - apply compare_arrays_num.
  - apply Z.ltb_ge, compare_arrays_num.
  - now rewrite compare_arrays_sym.
Qed.

(** C9 as written fails: a component that does not parse, standing
    after the first differing position, is never looked at.  Here [x]
    and [y] do not parse, yet the result is [True]. *)
Lemma compare_version_unparsable_ignored :
  In "x" (re_split "05.x") /\ py_int "x" = None
  /\ compare_version "05.x" "5.y" = PyBool true
  /\ py_num (compare_version "05.x" "5.y") <> 0.
Proof. repeat split; [right; left; reflexivity | discriminate]. Qed.

(** C9, amended.  [compare_version] is reflexive and symmetric, and it
    returns 0 whenever one of the two components at the first
    differing position does not parse as an integer. *)
Theorem compare_version_refl_sym (x y : string) :
  compare_version x x = PyInt 0
  /\ compare_version x y = compare_version y x
  /\ (forall cx cy,
        first_difference (re_split x) (re_split y) = Some (cx, cy) ->
        py_int cx = None \/ py_int cy = None ->
        compare_version x y = PyInt 0).
Proof.
  unfold compare_version. split; [apply compare_arrays_refl|].
  split; [apply compare_arrays_sym|].
  intros cx cy Hd Hp. rewrite compare_arrays_first_difference, Hd.
  destruct Hp as [-> | ->]; [reflexivity|].
  destruct (py_int cx); reflexivity.
Qed.

Lemma compare_version_refl_sym_witness :
  compare_version "5.7.x" "5.7.3" = PyInt 0.
Proof.
  apply (proj2 (proj2 (compare_version_refl_sym "5.7.x" "5.7.3")) "x" "3").
  - reflexivity.
  - left; reflexivity.
Defined.

(** ** The version gate of [app] *)

(** C2.  A source server of version 4.1.22 is not rejected: the gate
    compares the result of [compare_version] with 0, that result is
    [False], and [app] goes on to diff, writes both scripts and
    returns 0. *)
Theorem app_accepts_old_server :
  compare_version (version (source_obj old_source_env)) "5.0.0" = PyBool false
  /\ version_too_old (source_obj old_source_env) = false
  /\ outcome (app example_options old_source_env ∅) = Return 0
  /\ is_Some (disk (app example_options old_source_env ∅)
                !! "/tmp/shop.20240131.patch.sql")
  /\ is_Some (disk (app example_options old_source_env ∅)
                !! "/tmp/shop.20240131.revert.sql").
Proof.
  repeat split; try reflexivity; vm_compute; eexists; reflexivity.
Qed.

(** ** The loops of [app] *)

Section Loops.

Variable tgt : SchemaObject.

Lemma loop_body_skip k st pr :
  both_nonempty pr = false -> loop_body tgt k st pr = st.
Proof.
  destruct pr as [p r]; unfold both_nonempty, loop_body; simpl.
  now intros ->.
Qed.

Lemma loop_body_write k st pr :
  both_nonempty pr = true ->
  buffer (st_p (loop_body tgt k st pr))
    = buffer (st_p st) ++ (if db_selected st then [] else opening tgt k)
      ++ [(OBlock k, fst pr +:+ nl)]
  /\ buffer (st_r (loop_body tgt k st pr))
    = buffer (st_r st) ++ (if db_selected st then [] else opening tgt k)
      ++ [(OBlock k, snd pr +:+ nl)]
  /\ db_selected (loop_body tgt k st pr) = true
  /\ modified (st_p (loop_body tgt k st pr)) = true
  /\ modified (st_r (loop_body tgt k st pr)) = true.
Proof.
  destruct pr as [p r]; unfold both_nonempty, loop_body; simpl.
  intros ->. unfold select_db, opening.
  destruct (db_selected st) eqn:Hs; simpl.
  - rewrite Hs. repeat split; reflexivity.
  - destruct (opens_with_fk_checks k); simpl;
      rewrite <- ?app_assoc; repeat split; reflexivity.
Qed.

Lemma run_loop_spec k prs : forall st,
  let w := written prs in
  let op := if db_selected st || negb (nonempty w) then [] else opening tgt k in
  buffer (st_p (run_loop tgt k prs st)) = buffer (st_p st) ++ op ++ blocks k fst w
  /\ buffer (st_r (run_loop tgt k prs st)) = buffer (st_r st) ++ op ++ blocks k snd w
  /\ db_selected (run_loop tgt k prs st) = db_selected st || nonempty w
  /\ modified (st_p (run_loop tgt k prs st)) = modified (st_p st) || nonempty w
  /\ modified (st_r (run_loop tgt k prs st)) = modified (st_r st) || nonempty w.
Proof.
  induction prs as [|pr prs IH]; intros st; simpl.
  - rewrite !orb_false_r, orb_true_r, !app_nil_r. repeat split; reflexivity.
  - unfold written; simpl. fold (written prs).
    destruct (both_nonempty pr) eqn:Hb.
    + destruct (loop_body_write k st pr Hb) as (Hp & Hr & Hs & Hmp & Hmr).
      destruct (IH (loop_body tgt k st pr)) as (IHp & IHr & IHs & IHmp & IHmr).
      unfold run_loop in *; simpl.
      rewrite IHp, IHr, IHs, IHmp, IHmr, Hp, Hr, Hs, Hmp, Hmr. simpl.
      rewrite !orb_true_r, !orb_false_r.
      unfold opening.
      destruct (db_selected st), (opens_with_fk_checks k); simpl;
        rewrite <- ?app_assoc; simpl; repeat split; reflexivity.
    + unfold run_loop in *; simpl. rewrite (loop_body_skip k st pr Hb).
      apply IH.
Qed.

End Loops.

Section FillBuffers.

Variables (o : Options) (e : Env) (ft : option (list string)).

Lemma initial_state_empty :
  buffer (st_p (initial_state o e)) = [] /\ buffer (st_r (initial_state o e)) = []
  /\ db_selected (initial_state o e) = false
  /\ modified (st_p (initial_state o e)) = false
  /\ modified (st_r (initial_state o e)) = false.
Proof. repeat split; reflexivity. Qed.

Lemma close_fk_checks_spec st :
  buffer (st_p (close_fk_checks st))
    = buffer (st_p st)
      ++ (if db_selected st then [(OFkChecks true, fk_checks true +:+ nl)] else [])
  /\ buffer (st_r (close_fk_checks st))
    = buffer (st_r st)
      ++ (if db_selected st then [(OFkChecks true, fk_checks true +:+ nl)] else [])
  /\ db_selected (close_fk_checks st) = db_selected st
  /\ modified (st_p (close_fk_checks st)) = modified (st_p st) || db_selected st
  /\ modified (st_r (close_fk_checks st)) = modified (st_r st) || db_selected st.
Proof.
  unfold close_fk_checks. destruct (db_selected st) eqn:Hs; simpl;
    rewrite ?app_nil_r, ?orb_true_r, ?orb_false_r; repeat split; auto.
Qed.

Lemma fill_buffers_spec :
  (forall s, script_buffer s (fill_buffers o e ft)
     = layout (target_obj e) (script_side s)
         (written_of o e ft Table) (written_of o e ft View) (written_of o e ft Trigger) (written_of o e ft Procedure))
  /\ modified (st_p (fill_buffers o e ft))
     = nonempty (written_of o e ft Table) || nonempty (written_of o e ft View) || nonempty (written_of o e ft Trigger)
       || nonempty (written_of o e ft Procedure)
  /\ modified (st_r (fill_buffers o e ft))
     = nonempty (written_of o e ft Table) || nonempty (written_of o e ft View) || nonempty (written_of o e ft Trigger)
       || nonempty (written_of o e ft Procedure).
Proof.
  cut ((buffer (st_p (fill_buffers o e ft))
        = layout (target_obj e) fst (written_of o e ft Table) (written_of o e ft View) (written_of o e ft Trigger) (written_of o e ft Procedure)
        /\ buffer (st_r (fill_buffers o e ft))
        = layout (target_obj e) snd (written_of o e ft Table) (written_of o e ft View) (written_of o e ft Trigger) (written_of o e ft Procedure))
       /\ modified (st_p (fill_buffers o e ft))
          = nonempty (written_of o e ft Table) || nonempty (written_of o e ft View) || nonempty (written_of o e ft Trigger)
            || nonempty (written_of o e ft Procedure)
       /\ modified (st_r (fill_buffers o e ft))
          = nonempty (written_of o e ft Table) || nonempty (written_of o e ft View) || nonempty (written_of o e ft Trigger)
            || nonempty (written_of o e ft Procedure)).
  { intros ((Hp & Hr) & Hm). split; [intros []; assumption | exact Hm]. }
  unfold fill_buffers, layout, written_of, yields.
  set (tgt := target_obj e).
  set (s1 := run_loop tgt Table (sync_schema e o ft) (initial_state o e)).
  set (s2 := close_fk_checks s1).
  set (s3 := run_loop tgt View (sync_views e (filter_views o)) s2).
  set (s4 := run_loop tgt Trigger (sync_triggers e (filter_triggers o)) s3).
  destruct initial_state_empty as (I1 & I2 & I3 & I4 & I5).
  destruct (run_loop_spec tgt Table (sync_schema e o ft) (initial_state o e))
    as (A1 & A2 & A3 & A4 & A5).
  destruct (close_fk_checks_spec s1) as (B1 & B2 & B3 & B4 & B5).
  destruct (run_loop_spec tgt View (sync_views e (filter_views o)) s2)
    as (C1 & C2 & C3 & C4 & C5).
  destruct (run_loop_spec tgt Trigger (sync_triggers e (filter_triggers o)) s3)
    as (D1 & D2 & D3 & D4 & D5).
  destruct (run_loop_spec tgt Procedure (sync_procedures e (filter_procedures o)) s4)
    as (E1 & E2 & E3 & E4 & E5).
  fold s1 in A1, A2, A3, A4, A5. fold s2 in B1, B2, B3, B4, B5.
  fold s3 in C1, C2, C3, C4, C5. fold s4 in D1, D2, D3, D4, D5.
  set (wt := written (sync_schema e o ft)) in *.
  set (wv := written (sync_views e (filter_views o))) in *.
  set (wg := written (sync_triggers e (filter_triggers o))) in *.
  set (wp := written (sync_procedures e (filter_procedures o))) in *.
  rewrite I1, I3 in A1. rewrite I2, I3 in A2. rewrite I3 in A3.
  rewrite I4 in A4. rewrite I5 in A5. simpl in A1, A2, A3, A4, A5.
  rewrite E1, E2, E4, E5, D1, D2, D3, D4, D5, C1, C2, C3, C4, C5,
    B1, B2, B3, B4, B5, A1, A2, A3, A4, A5.
  destruct (nonempty wt), (nonempty wv), (nonempty wg), (nonempty wp); simpl;
    rewrite <- ?app_assoc; simpl; repeat split; reflexivity.
Qed.

End FillBuffers.

Section Layout.

Variables (tgt : SchemaObject) (side : string * string -> string).

Lemma written_from_app o (a b : list (Origin * string)) :
  written_from o (a ++ b) = written_from o a ++ written_from o b.
Proof. unfold written_from. now rewrite List.filter_app, List.map_app. Qed.

Lemma written_from_blocks o k (w : Pairs) :
  written_from o (blocks k side w)
  = if origin_eqb (OBlock k) o then map (fun pr => side pr +:+ nl) w else [].
Proof.
  unfold written_from, blocks.
  destruct (origin_eqb (OBlock k) o) eqn:Ho;
    induction w as [|pr w IH]; try reflexivity;
    cbn [blocks map List.filter fst snd]; rewrite Ho;
    cbn [map snd]; now rewrite IH.
Qed.

Lemma block_kinds_blocks k (w : Pairs) :
  block_kinds (blocks k side w) = replicate (length w) k.
Proof.
  induction w as [|pr w IH]; [reflexivity|].
  simpl. f_equal. exact IH.
Qed.

Lemma layout_blocks k (wt wv wg wp : Pairs) :
  written_from (OBlock k) (layout tgt side wt wv wg wp)
  = map (fun pr => side pr +:+ nl)
      match k with Table => wt | View => wv | Trigger => wg | Procedure => wp end.
Proof.
  unfold layout, opening.
  rewrite !written_from_app, !written_from_blocks.
  destruct k, (nonempty wt), (nonempty wv), (nonempty wg), (nonempty wp);
    simpl; rewrite ?app_nil_r; reflexivity.
Qed.

Lemma layout_block_kinds (wt wv wg wp : Pairs) :
  block_kinds (layout tgt side wt wv wg wp)
  = replicate (length wt) Table ++ replicate (length wv) View
    ++ replicate (length wg) Trigger ++ replicate (length wp) Procedure.
Proof.
  unfold layout, opening, block_kinds.
  rewrite !omap_app. fold block_kinds. rewrite !block_kinds_blocks.
  destruct (nonempty wt), (nonempty wv), (nonempty wg), (nonempty wp);
    simpl; reflexivity.
Qed.

Lemma layout_with_tables (wt wv wg wp : Pairs) :
  nonempty wt = true ->
  layout tgt side wt wv wg wp
  = (OSelect, select tgt +:+ nl)
    :: (OFkChecks false, fk_checks false +:+ nl)
    :: blocks Table side wt
    ++ (OFkChecks true, fk_checks true +:+ nl)
    :: (blocks View side wv ++ blocks Trigger side wg ++ blocks Procedure side wp).
Proof. unfold layout, opening. intros ->. reflexivity. Qed.


Lemma in_written_from o d (buf : list (Origin * string)) :
  In (o, d) buf -> In d (written_from o buf).
Proof.
  intros H. unfold written_from. apply (List.in_map snd _ (o, d)).
  apply List.filter_In. split; [exact H|]. simpl.
  destruct o as [|v|k]; simpl; [reflexivity | now destruct v | now destruct k].
Qed.

End Layout.


Lemma py_truthy_iff (s : string) : py_truthy s = true <-> s <> EmptyString.
Proof. destruct s; simpl; split; congruence. Qed.

Lemma in_written (prs : Pairs) (pr : string * string) :
  In pr (written prs)
  <-> In pr prs /\ fst pr <> EmptyString /\ snd pr <> EmptyString.
Proof.
  unfold written, both_nonempty. rewrite List.filter_In, andb_true_iff.
  now rewrite !py_truthy_iff.
Qed.

(** ** What reaches the two scripts *)

(** C4 as written fails: a pair with a non-empty patch and an empty
    revert is yielded and nothing at all is written. *)
Lemma one_sided_pair_not_written :
  In ("ALTER TABLE t DROP COLUMN c;", EmptyString) (yields example_options one_sided_env None Table)
  /\ py_truthy "ALTER TABLE t DROP COLUMN c;" = true
  /\ script_buffer Patch (fill_buffers example_options one_sided_env None) = []
  /\ script_buffer Revert (fill_buffers example_options one_sided_env None) = [].
Proof. repeat split. left; reflexivity. Qed.

(** C4, amended.  A pair is written exactly when both its patch and its
    revert text are non-empty: for each kind, the blocks of a script
    are the corresponding sides of those pairs, in the order yielded,
    each followed by a line feed; a pair with an empty side is
    omitted. *)
Theorem pair_written_iff_both_nonempty (o : Options) (e : Env)
  (ft : option (list string)) (s : Script) (k : Kind) :
  written_from (OBlock k) (script_buffer s (fill_buffers o e ft))
  = map (fun pr => script_side s pr +:+ nl) (written_of o e ft k)
  /\ (forall pr, In pr (written_of o e ft k)
       <-> In pr (yields o e ft k) /\ fst pr <> EmptyString /\ snd pr <> EmptyString).
Proof.
  split.
  - destruct (fill_buffers_spec o e ft) as (H & _). rewrite H, layout_blocks.
    now destruct k.
  - intros pr. apply in_written.
Qed.

(** C5.  Whenever a table block is written, to either script, the
    patch script and the revert script each start with [USE], then
    the single statement that switches [FOREIGN_KEY_CHECKS] off, then
    their table blocks, then the single statement that switches it
    back on; what follows holds blocks of other kinds only. *)
Theorem fk_checks_bracket_table_blocks (o : Options) (e : Env)
  (ft : option (list string)) :
  (exists s d, In (OBlock Table, d) (script_buffer s (fill_buffers o e ft))) ->
  written_of o e ft Table <> []
  /\ forall s, exists rest,
    script_buffer s (fill_buffers o e ft)
    = (OSelect, select (target_obj e) +:+ nl)
      :: (OFkChecks false, fk_checks false +:+ nl)
      :: blocks Table (script_side s) (written_of o e ft Table)
      ++ (OFkChecks true, fk_checks true +:+ nl) :: rest
    /\ blocks Table (script_side s) (written_of o e ft Table) <> []
    /\ (forall x, In x rest -> exists k, fst x = OBlock k /\ k <> Table)
    /\ written_from (OFkChecks false) (script_buffer s (fill_buffers o e ft))
       = [fk_checks false +:+ nl]
    /\ written_from (OFkChecks true) (script_buffer s (fill_buffers o e ft))
       = [fk_checks true +:+ nl].
Proof.
  intros (s0 & d & Hd).
  destruct (fill_buffers_spec o e ft) as (H & _).
  rewrite H in Hd. apply in_written_from in Hd. rewrite layout_blocks in Hd.
  set (wt := written_of o e ft Table) in *.
  assert (Hne : nonempty wt = true) by (destruct wt; [destruct Hd | reflexivity]).
  split; [now destruct wt|].
  intros s. rewrite H. fold wt.
  set (side := script_side s).
  rewrite (layout_with_tables _ _ _ _ _ _ Hne).
  exists (blocks View side (written_of o e ft View)
          ++ blocks Trigger side (written_of o e ft Trigger)
          ++ blocks Procedure side (written_of o e ft Procedure)).
  split; [reflexivity|]. split; [now destruct wt|]. split.
  - intros x Hx. unfold blocks in Hx.
    rewrite !List.in_app_iff, !List.in_map_iff in Hx.
    destruct Hx as [(pr & <- & _) | [(pr & <- & _) | (pr & <- & _)]];
      eexists; (split; [reflexivity | discriminate]).
  - change ((OSelect, select (target_obj e) +:+ nl)
            :: (OFkChecks false, fk_checks false +:+ nl)
            :: blocks Table side wt
            ++ (OFkChecks true, fk_checks true +:+ nl)
            :: blocks View side (written_of o e ft View)
            ++ blocks Trigger side (written_of o e ft Trigger)
            ++ blocks Procedure side (written_of o e ft Procedure))
      with ([(OSelect, select (target_obj e) +:+ nl);
             (OFkChecks false, fk_checks false +:+ nl)]
            ++ blocks Table side wt
            ++ [(OFkChecks true, fk_checks true +:+ nl)]
            ++ blocks View side (written_of o e ft View)
            ++ blocks Trigger side (written_of o e ft Trigger)
            ++ blocks Procedure side (written_of o e ft Procedure)).
    rewrite !written_from_app, !written_from_blocks. split; reflexivity.
Qed.

Lemma fk_checks_bracket_table_blocks_witness :
  written_from (OFkChecks false)
    (script_buffer Patch (fill_buffers example_options example_run_env None))
  = [fk_checks false +:+ nl]
  /\ written_from (OFkChecks true)
       (script_buffer Revert (fill_buffers example_options example_run_env None))
     = [fk_checks true +:+ nl].
Proof.
  destruct (fk_checks_bracket_table_blocks example_options example_run_env None)
    as (_ & H).
  - exists Patch. eexists. right. right. left. reflexivity.
  - destruct (H Patch) as (? & _ & _ & _ & H1 & _).
    destruct (H Revert) as (? & _ & _ & _ & _ & H2).
    split; assumption.
Defined.

(** C6.  In both scripts the change blocks come in the same order of
    kinds: every table block, then every view block, then every
    trigger block, then every procedure block. *)
Theorem blocks_in_kind_order (o : Options) (e : Env) (ft : option (list string))
  (s : Script) :
  block_kinds (script_buffer s (fill_buffers o e ft))
  = replicate (length (written_of o e ft Table)) Table
    ++ replicate (length (written_of o e ft View)) View
    ++ replicate (length (written_of o e ft Trigger)) Trigger
    ++ replicate (length (written_of o e ft Procedure)) Procedure.
Proof.
  destruct (fill_buffers_spec o e ft) as (H & _).
  rewrite H. apply layout_block_kinds.
Qed.

(** ** The two files of a run *)

Section Names.







Lemma save_buffer (e : Env) (b : PatchBuffer) (fs : FS) :
  match save e b fs with
  | SaveReturn _ b1 _ | SaveOSError _ b1 _ =>
      buffer b1 = buffer b /\ modified b1 = modified b
  end.
Proof.
  unfold save. destruct (negb (py_truthy (getvalue b))); [split; reflexivity|].
  destruct (pb_version_filename b); cbn zeta;
    (destruct (can_open e _); [destruct (fh_write e _ _)|]); split; reflexivity.
Qed.





End Names.

(** ** The checks at the head of [app] *)


Lemma touch_other (f n : string) (fs : FS) :
  n <> f -> touch f fs !! n = fs !! n.
Proof.
  intros H. unfold touch. destruct (fs !! f); [reflexivity|].
  now rewrite lookup_insert_ne.
Qed.

(** Before the two servers are asked anything, [app] has made at most
    the [logs] directory and touched no file but the log file. *)
Lemma prepared_disk (o : Options) (e : Env) (fs : FS) (n : string) :
  n <> log_file o e -> w_disk (prepared o e fs) !! n = fs !! n.
Proof.
  intros H. unfold prepared.
  destruct (py_truthy_opt (log_directory o) && negb (log_directory_usable o e));
    destruct (isdir e (logs_directory o e)); destruct (root_has_handlers e);
    cbn [w_disk on_disk say note mkdir]; try reflexivity; now apply touch_other.
Qed.

Lemma app_reaches_finish (o : Options) (e : Env) (fs : FS) (h : Handlers)
  (w : World) (ft : option (list string)) :
  front o e fs = Go h w ->
  effective_filter_tables o e = Some ft ->
  app o e fs = finish o e h w (fill_buffers o e ft).
Proof.
  intros Hg Hf. unfold app, diff_and_save.
  now rewrite Hg, !version_gate_never_fires, Hf.
Qed.

(** The checks, one by one *)
Lemma front_passes (o : Options) (e : Env) (fs : FS) (s t : string) :
  isabs (output_directory o) = true ->
  isdir e (output_directory o) = true ->
  isdir e (logs_directory o e) || can_makedirs e (logs_directory o e) = true ->
  root_has_handlers e || can_open e (log_file o e) = true ->
  check_url e "Source" "source" (sourcedb o) = inr s ->
  check_url e "Target" "target" (targetdb o) = inr t ->
  String.eqb s "*" && String.eqb t "*" = false ->
  front o e fs = Go (handlers o e) (prepared o e fs).
Proof.
  intros H1 H2 H3 H4 H5 H6 H7. unfold front.
  rewrite H1, H2, H5, H6, H7. cbn [negb].
  apply orb_true_iff in H3. apply orb_true_iff in H4.
  destruct (isdir e (logs_directory o e)), (can_makedirs e (logs_directory o e)),
    (root_has_handlers e), (can_open e (log_file o e));
    try reflexivity; intuition discriminate.
Qed.

(** ** A run that finds the two databases in sync *)





(** ** Patch file names *)

Section Substitution.

Lemma re_sub_cons (m : matcher) (repl : list ascii) (c : ascii) (t : list ascii) :
  re_sub m repl (c :: t)
  = match m (c :: t) with
    | Some n => repl ++ re_sub m repl (drop (Nat.pred n) t)
    | None => c :: re_sub m repl t
    end.
Proof. simp re_sub. destruct (m (c :: t)); reflexivity. Qed.

Lemma re_sub_nil (m : matcher) (repl : list ascii) : re_sub m repl [] = [].
Proof. now simp re_sub. Qed.

Lemma is_underscore_eq (c : ascii) : is_underscore c = true -> c = USCORE.
Proof. apply Ascii.eqb_eq. Qed.

Lemma sub_tag_invalid (s : list ascii) :
  re_sub REGEX_TAG_INVALID [USCORE] s = map replace_invalid s.
Proof.
  induction s as [|c t IH]; [apply re_sub_nil|].
  rewrite re_sub_cons.
  change (REGEX_TAG_INVALID (c :: t))
    with (if is_tag_char c then None else Some 1%nat).
  cbn [map]. unfold replace_invalid at 1.
  destruct (is_tag_char c); cbn [Nat.pred]; rewrite ?drop_0, IH; reflexivity.
Qed.

Lemma squeeze_run (c : ascii) (t : list ascii) :
  is_underscore c = true ->
  squeeze_underscores (c :: t)
  = USCORE :: squeeze_underscores (drop (span is_underscore t) t).
Proof.
  revert c; induction t as [|c2 t IH]; intros c Hc.
  - simpl. rewrite Hc. now rewrite (is_underscore_eq c Hc).
  - change (squeeze_underscores (c :: c2 :: t))
      with (if is_underscore c
            then if is_underscore c2 then squeeze_underscores (c2 :: t)
                 else c :: squeeze_underscores (c2 :: t)
            else c :: squeeze_underscores (c2 :: t)).
    rewrite Hc. cbn [span]. destruct (is_underscore c2) eqn:H2.
    + rewrite (IH c2 H2). reflexivity.
    + now rewrite (is_underscore_eq c Hc).
Qed.

Lemma sub_underscores (s : list ascii) :
  re_sub REGEX_UNDERSCORES [USCORE] s = squeeze_underscores s.
Proof.
  remember (length s) as n eqn:Hn. revert s Hn.
  induction n as [n IH] using lt_wf_ind. intros [|c t] Hn; [apply re_sub_nil|].
  rewrite re_sub_cons.
  change (REGEX_UNDERSCORES (c :: t))
    with (if is_underscore c then Some (S (span is_underscore t)) else None).
  destruct (is_underscore c) eqn:Hc.
  - cbn [Nat.pred app]. rewrite (squeeze_run c t Hc). f_equal.
    apply (IH (length (drop (span is_underscore t) t))); [|reflexivity].
    subst n. rewrite length_drop. simpl. lia.
  - transitivity (c :: squeeze_underscores t).
    + f_equal. apply (IH (length t)); [subst n; simpl; lia | reflexivity].
    + simpl. now rewrite Hc.
Qed.

Lemma squeeze_without_run (s : list ascii) :
  has_double_underscore s = false -> squeeze_underscores s = s.
Proof.
  induction s as [|c t IH]; [reflexivity|].
  destruct t as [|c2 t'].
  - simpl. now destruct (is_underscore c).
  - change (has_double_underscore (c :: c2 :: t'))
      with (is_underscore c && is_underscore c2 || has_double_underscore (c2 :: t')).
    intros H. apply orb_false_iff in H as [H1 H2].
    change (squeeze_underscores (c :: c2 :: t'))
      with (if is_underscore c
            then if is_underscore c2 then squeeze_underscores (c2 :: t')
                 else c :: squeeze_underscores (c2 :: t')
            else c :: squeeze_underscores (c2 :: t')).
    rewrite (IH H2).
    destruct (is_underscore c), (is_underscore c2); try reflexivity; discriminate.
Qed.

Lemma clean_tag_spec (tg : string) :
  clean_tag tg = str (squeeze_underscores (map replace_invalid (text tg))).
Proof.
  unfold clean_tag. rewrite sub_tag_invalid.
  destruct (has_double_underscore _) eqn:H.
  - now rewrite sub_underscores.
  - now rewrite (squeeze_without_run _ H).
Qed.

End Substitution.

(** C10 as written fails: two adjacent characters outside the class
    give one underscore in the file name, not one each. *)
Lemma tag_run_gives_one_underscore :
  str (map replace_invalid (text "a  b")) = "a__b"
  /\ fst (create_pnames "shop" (Some "a  b") "20240131" true)
     = "shop_a_b.20240131.patch.sql"
  /\ fst (create_pnames "shop" (Some "a  b") "20240131" true)
     <> "shop_" +:+ str (map replace_invalid (text "a  b"))
        +:+ ".20240131.patch.sql".
Proof. repeat split. discriminate. Qed.

(** C10, amended.  The two names share one basename, followed by
    [.patch.sql] and by [.revert.sql].  With a non-empty tag the
    basename is the database name, an underscore, the cleaned tag, a
    dot and the date, whatever [no_date] says; the cleaned tag is the
    tag with every character outside [[A-Za-z0-9_-]] replaced by an
    underscore and every run of underscores then collapsed to one. *)
Theorem create_pnames_shape (db : string) (tag : option string) (d : string)
  (no_date : bool) :
  fst (create_pnames db tag d no_date)
    = pnames_basename db tag d no_date +:+ ".patch.sql"
  /\ snd (create_pnames db tag d no_date)
    = pnames_basename db tag d no_date +:+ ".revert.sql"
  /\ (forall tg, tag = Some tg -> tg <> EmptyString ->
        pnames_basename db tag d no_date
        = db +:+ "_"
          +:+ str (squeeze_underscores (map replace_invalid (text tg)))
          +:+ "." +:+ d).
Proof.
  repeat split.
  intros tg -> Htg. unfold pnames_basename.
  apply py_truthy_iff in Htg. rewrite Htg. now rewrite clean_tag_spec.
Qed.

Lemma create_pnames_shape_witness :
  pnames_basename "shop" (Some "v 1.2") "20240131" true
  = "shop_v_1_2.20240131".
Proof.
  rewrite (proj2 (proj2 (create_pnames_shape "shop" (Some "v 1.2") "20240131" true))
             "v 1.2").
  - reflexivity.
  - reflexivity.
  - discriminate.
Defined.

(** ** Existing-only mode *)

Section ExistingOnly.

Import SpecModel.

Variable source_only : TableDef -> Block * Block.

Lemma mapM_rows (key : string) (names : list string) :
  mapM (fun d : gmap string string => d !! key) (rows_of key names) = Some names.
Proof.
  induction names as [|n names IH]; [reflexivity|].
  unfold rows_of in *. cbn [map mapM]. rewrite IH.
  now rewrite lookup_singleton_eq.
Qed.

(** A name of the target's tables is found in the target *)
Lemma lookup_table_mem (n : string) (tgt : list TableDef) :
  mem n (map t_name tgt) = true -> exists b, lookup_table n tgt = Some b.
Proof.
  unfold mem, lookup_table.
  induction tgt as [|t tgt IH]; [discriminate|].
  cbn [map existsb List.find]. rewrite (String.eqb_sym n).
  destruct (String.eqb (t_name t) n); [eauto | exact IH].
Qed.

Lemma table_sync_in_target (s : option TableDef) (b : TableDef) :
  no_existence_change (fst (table_sync source_only true s (Some b))) = true
  /\ no_existence_change (snd (table_sync source_only true s (Some b))) = true.
Proof.
  destruct s as [a|]; simpl; [|split; reflexivity].
  destruct (String.eqb _ _); split; reflexivity.
Qed.

(** With the names of the target's tables as the filter, no table that
    is only in the source is considered: what is left is altered or,
    in existing-only mode, left alone. *)
Lemma sync_tables_existing_only (src tgt : list TableDef) :
  Forall (fun pr => no_existence_change (fst pr) = true
                    /\ no_existence_change (snd pr) = true)
    (sync_tables source_only src tgt (Some (map t_name tgt)) true).
Proof.
  unfold sync_tables. apply List.Forall_forall. intros pr Hpr.
  apply List.filter_In in Hpr as [Hpr _].
  apply List.in_map_iff in Hpr as (n & <- & Hn).
  unfold considered in Hn. apply List.filter_In in Hn as [_ Hn].
  apply lookup_table_mem in Hn as [b ->].
  apply table_sync_in_target.
Qed.

Lemma finish_buffers (o : Options) (e : Env) (h : Handlers) (w : World)
  (st : LoopState) :
  exists p r, buffers (finish o e h w st) = Some (p, r)
              /\ buffer p = buffer (st_p st) /\ buffer r = buffer (st_r st).
Proof.
  assert (F : forall err w' p r,
             buffers (write_failed e h err w' p r) = Some (p, r)).
  { intros err w' p r. unfold write_failed.
    destruct (pb_delete e p (w_disk w')); [reflexivity|].
    destruct (pb_delete e r _); reflexivity. }
  unfold finish.
  destruct (negb (modified (st_p st))); [eexists _, _; repeat split|].
  pose proof (save_buffer e (st_p st) (w_disk w)) as Bp.
  destruct (save e (st_p st) (w_disk w)) as [ret p1 fs1|err p1 fs1];
    destruct Bp as [Bp _];
    [|eexists _, _; rewrite F; repeat split; assumption].
  pose proof (save_buffer e (st_r st) fs1) as Br.
  destruct (save e (st_r st) fs1) as [ret' r1 fs2|err r1 fs2];
    destruct Br as [Br _];
    [|eexists _, _; rewrite F; repeat split; assumption].
  cbn zeta. exists p1, r1. split; [|split; assumption].
  destruct (_ && _ && _); [|reflexivity].
  destruct (send_alert e _ _ _ _) as [[[err|x]|] fs3]; [apply F | reflexivity |].
  destruct (no_delete_result o); [reflexivity|].
  destruct (os_remove e (name p1) _); [apply F|].
  destruct (os_remove e (name r1) _); [apply F | reflexivity].
Qed.

End ExistingOnly.

(** C3.  In a run of [app] with [only_sync_exists_tables] that gets to
    the synchronizers, the table filter handed to the table
    synchronizer is the list of the names [SHOW TABLES] answered for
    the target, whatever filter the user supplied: the table blocks of
    both scripts are what [sync_schema] yields for that filter.
    Consequently, with the table synchronizer of the spec, no block
    with a [CREATE TABLE] or a [DROP TABLE] statement is yielded, and
    every table block of either script is the text of a block without
    one: a table that is only in the source is not among the names
    considered, and one that is only in the target is left alone in
    that mode. *)
Theorem existing_only_no_create_drop (o : Options) (e : Env) (fs : FS)
  (h : Handlers) (w : World) (src tgt : list SpecModel.TableDef)
  (source_only : SpecModel.TableDef -> SpecModel.Block * SpecModel.Block) :
  let names := map SpecModel.t_name tgt in
  only_sync_exists_tables o = true ->
  front o e fs = Go h w ->
  show_tables e = rows_of (tables_key e) names ->
  effective_filter_tables o e = Some (Some names)
  /\ exists p r,
       buffers (app o e fs) = Some (p, r)
       /\ written_from (OBlock Table) (buffer p)
          = map (fun pr => fst pr +:+ nl) (written (sync_schema e o (Some names)))
       /\ written_from (OBlock Table) (buffer r)
          = map (fun pr => snd pr +:+ nl) (written (sync_schema e o (Some names)))
       /\ ((forall o' ft, sync_schema e o' ft
              = SpecModel.render_pairs
                  (SpecModel.sync_tables source_only src tgt ft
                     (only_sync_exists_tables o'))) ->
           Forall (fun pr => no_existence_change (fst pr) = true
                             /\ no_existence_change (snd pr) = true)
             (SpecModel.sync_tables source_only src tgt (Some names) true)
           /\ forall d, In (OBlock Table, d) (buffer p ++ buffer r) ->
                exists b, d = SpecModel.render b +:+ nl
                          /\ no_existence_change b = true).
Proof.
  intros names Ho Hg Hrows.
  assert (Hf : effective_filter_tables o e = Some (Some names)).
  { unfold effective_filter_tables. rewrite Ho, Hrows, mapM_rows. reflexivity. }
  split; [exact Hf|].
  rewrite (app_reaches_finish o e fs h w _ Hg Hf).
  destruct (finish_buffers o e h w (fill_buffers o e (Some names)))
    as (p & r & -> & Bp & Br).
  destruct (fill_buffers_spec o e (Some names)) as (Hb & _).
  pose proof (Hb Patch) as Hp. pose proof (Hb Revert) as Hr.
  cbn [script_buffer script_side] in Hp, Hr.
  exists p, r. split; [reflexivity|].
  rewrite Bp, Br, Hp, Hr, !layout_blocks.
  split; [reflexivity|]. split; [reflexivity|].
  intros Hsync.
  pose proof (sync_tables_existing_only source_only src tgt) as HF.
  split; [exact HF|].
  intros d Hd.
  assert (Hw : exists pr s, In pr (sync_schema e o (Some names))
                            /\ d = script_side s pr +:+ nl).
  { apply List.in_app_iff in Hd as [Hd|Hd];
      apply in_written_from in Hd; rewrite layout_blocks in Hd;
      apply List.in_map_iff in Hd as (pr & <- & Hpr);
      apply in_written in Hpr as [Hpr _];
      [exists pr, Patch | exists pr, Revert]; split; auto. }
  destruct Hw as (pr & s & Hpr & ->).
  rewrite Hsync, Ho in Hpr.
  apply List.in_map_iff in Hpr as (bp & <- & Hbp).
  rewrite List.Forall_forall in HF. destruct (HF bp Hbp) as [H1 H2].
  destruct s; simpl; eexists; split; try reflexivity; assumption.
Qed.

Lemma existing_only_no_create_drop_witness :
  effective_filter_tables existing_only_options existing_only_env
  = Some (Some ["users"; "legacy"])
  /\ exists p r,
       buffers (app existing_only_options existing_only_env ∅) = Some (p, r)
       /\ written_from (OBlock Table) (buffer p)
          = ["ALTER TABLE users (id INT, name VARCHAR(50));" +:+ nl].
Proof.
  destruct (existing_only_no_create_drop existing_only_options existing_only_env ∅
              (handlers existing_only_options existing_only_env)
              (prepared existing_only_options existing_only_env ∅)
              source_tables target_tables SpecModel.creating)
    as (H & p & r & B & Hp & _).
  - reflexivity.
  - reflexivity.
  - reflexivity.
  - split; [exact H|]. exists p, r. split; [exact B|]. rewrite Hp. reflexivity.
Defined.

(** Both ingredients are at work.  With the filter of the user, the
    table [orders], which is only in the source, is considered, and a
    synchronizer free to create it does so even in the mode; without
    the mode, the table [legacy], which is only in the target, is
    dropped although the filter is the list of the target's tables. *)
Example sync_tables_without_the_filter :
  SpecModel.sync_tables SpecModel.creating source_tables target_tables
    (Some ["orders"]) true
  = [([SpecModel.CreateTable {| SpecModel.t_name := "orders";
                                SpecModel.t_definition := "(id INT)" |}],
      [SpecModel.DropTable "orders"])].
Proof. reflexivity. Qed.

Example sync_tables_without_the_mode :
  SpecModel.sync_tables SpecModel.creating source_tables target_tables
    (Some ["users"; "legacy"]) false
  = [([SpecModel.AlterTable "users" "(id INT, name VARCHAR(30))"
                                    "(id INT, name VARCHAR(50))"],
      [SpecModel.AlterTable "users" "(id INT, name VARCHAR(50))"
                                    "(id INT, name VARCHAR(30))"]);
     ([SpecModel.DropTable "legacy"],
      [SpecModel.CreateTable {| SpecModel.t_name := "legacy";
                                SpecModel.t_definition := "(id INT)" |}])].
Proof. reflexivity. Qed.

(** ** The output filters *)

Section Filters.

Lemma head_space_after_span (l : list ascii) :
  head_space (drop (span is_space l) l) = false.
Proof.
  induction l as [|c t IH]; [reflexivity|].
  simpl. destruct (is_space c) eqn:Hc; simpl; [exact IH | exact Hc].
Qed.

Lemma ink_after_span (l : list ascii) :
  ink (drop (span is_space l) l) = ink l.
Proof.
  induction l as [|c t IH]; [reflexivity|].
  simpl. destruct (is_space c) eqn:Hc; simpl; [exact IH | now rewrite Hc].
Qed.

Lemma no_space_run_drop (k : nat) (l : list ascii) :
  no_space_run l = true -> no_space_run (drop k l) = true.
Proof.
  revert l; induction k as [|k IH]; intros [|c t] H; try assumption.
  simpl. apply IH. simpl in H. now apply andb_true_iff in H as [_ H].
Qed.

Lemma length_after_span (l : list ascii) :
  (length (drop (span is_space l) l) <= length l)%nat.
Proof. rewrite length_drop. lia. Qed.

(** [\s\s+] replaced by one blank *)
Lemma multi_space_props (l : list ascii) :
  no_space_run (re_sub REGEX_MULTI_SPACE [SP] l) = true
  /\ head_space (re_sub REGEX_MULTI_SPACE [SP] l) = head_space l
  /\ ink (re_sub REGEX_MULTI_SPACE [SP] l) = ink l.
Proof.
  remember (length l) as n eqn:Hn. revert l Hn.
  induction n as [n IH] using lt_wf_ind. intros [|c t] Hn.
  { rewrite re_sub_nil. repeat split. }
  rewrite re_sub_cons.
  destruct t as [|c2 t'].
  - change (REGEX_MULTI_SPACE [c]) with (@None nat).
    rewrite re_sub_nil. simpl. rewrite andb_false_r. repeat split.
  - change (REGEX_MULTI_SPACE (c :: c2 :: t'))
      with (if is_space c && is_space c2 then Some (2 + span is_space t')%nat
            else None).
    destruct (is_space c && is_space c2) eqn:Hcc.
    + apply andb_true_iff in Hcc as [Hc Hc2].
      change (drop (Nat.pred (2 + span is_space t')) (c2 :: t'))
        with (drop (span is_space t') t').
      set (rest := drop (span is_space t') t').
      destruct (IH (length rest)) with (l := rest) as (R1 & R2 & R3);
        [subst n; pose proof (length_after_span t'); unfold rest; simpl; lia
        | reflexivity |].
      pose proof (head_space_after_span t') as Hh. fold rest in Hh.
      change ([SP] ++ re_sub REGEX_MULTI_SPACE [SP] rest)
        with (SP :: re_sub REGEX_MULTI_SPACE [SP] rest).
      cbn [no_space_run head_space ink List.filter].
      fold (ink (re_sub REGEX_MULTI_SPACE [SP] rest)). fold (ink t').
      rewrite R1, R2, Hh, R3, Hc, Hc2. simpl.
      unfold rest. rewrite ink_after_span. repeat split.
    + destruct (IH (length (c2 :: t'))) with (l := c2 :: t') as (R1 & R2 & R3);
        [subst n; simpl; lia | reflexivity |].
      cbn [no_space_run head_space ink List.filter].
      fold (ink (re_sub REGEX_MULTI_SPACE [SP] (c2 :: t'))).
      rewrite R1, R2, R3. cbn [head_space]. rewrite Hcc. repeat split.
Qed.

Lemma drop_next (k : nat) (l : list ascii) (x : ascii) (rest : list ascii) :
  drop k l = x :: rest -> drop (S k) l = rest.
Proof.
  revert l; induction k as [|k IH]; intros [|c t] H; try discriminate.
  - simpl in H. injection H as _ ->. reflexivity.
  - simpl in *. now apply IH.
Qed.

Lemma distant_semicolon_match (l : list ascii) (n : nat) :
  REGEX_DISTANT_SEMICOLIN l = Some n ->
  exists k rest,
    span is_space l = S k /\ n = S (S k)
    /\ drop (S k) l = SEMI :: rest /\ (rest = [] \/ rest = [LF]).
Proof.
  unfold REGEX_DISTANT_SEMICOLIN.
  destruct (span is_space l) as [|k] eqn:Hk; [discriminate|].
  destruct (drop (S k) l) as [|c rest] eqn:Hd; [discriminate|].
  destruct (Ascii.eqb c SEMI) eqn:Hc; [|discriminate].
  apply Ascii.eqb_eq in Hc as ->.
  destruct rest as [|c2 [|c3 rest]]; simpl; try discriminate.
  - intros [= <-]. exists k, []. auto.
  - destruct (Ascii.eqb c2 LF) eqn:H2; [|discriminate].
    apply Ascii.eqb_eq in H2 as ->.
    intros [= <-]. exists k, [LF]. auto.
Qed.

(** [(\s+;)$] replaced by a semicolon *)
Lemma distant_semicolon_props (l : list ascii) :
  no_space_run l = true ->
  no_space_run (re_sub REGEX_DISTANT_SEMICOLIN [SEMI] l) = true
  /\ (head_space (re_sub REGEX_DISTANT_SEMICOLIN [SEMI] l) = true ->
      head_space l = true)
  /\ ink (re_sub REGEX_DISTANT_SEMICOLIN [SEMI] l) = ink l.
Proof.
  induction l as [|c t IH]; intros Hl.
  { rewrite re_sub_nil. repeat split. discriminate. }
  rewrite re_sub_cons.
  destruct (REGEX_DISTANT_SEMICOLIN (c :: t)) as [n|] eqn:Hm.
  - apply distant_semicolon_match in Hm as (k & rest & Hk & -> & Hd & Hrest).
    assert (Hd' : drop (S k) t = rest).
    { change (drop (S k) t) with (drop (S (S k)) (c :: t)).
      now apply (drop_next _ _ SEMI). }
    cbn [Nat.pred]. rewrite Hd'.
    assert (Hi : ink (c :: t) = SEMI :: ink rest).
    { rewrite <- (ink_after_span (c :: t)), Hk, Hd. reflexivity. }
    rewrite Hi.
    destruct Hrest as [-> | ->]; repeat split; discriminate.
  - cbn [no_space_run] in Hl. apply andb_true_iff in Hl as [Hc Ht].
    destruct (IH Ht) as (R1 & R2 & R3).
    cbn [no_space_run head_space ink List.filter].
    fold (ink (re_sub REGEX_DISTANT_SEMICOLIN [SEMI] t)). fold (ink t).
    rewrite R1, R3. repeat split; [|auto].
    rewrite andb_true_r.
    destruct (is_space c); [|reflexivity].
    destruct (head_space (re_sub REGEX_DISTANT_SEMICOLIN [SEMI] t)); [|reflexivity].
    rewrite (R2 eq_refl) in Hc. discriminate.
Qed.

(** [;\s+] replaced by a semicolon and a line feed *)
Lemma semicolon_newline_props (l : list ascii) :
  semicolons_end_lines (re_sub REGEX_SEMICOLON_EXPLODE_TO_NEWLINE [SEMI; LF] l) = true
  /\ (head_space (re_sub REGEX_SEMICOLON_EXPLODE_TO_NEWLINE [SEMI; LF] l) = true ->
      head_space l = true)
  /\ ink (re_sub REGEX_SEMICOLON_EXPLODE_TO_NEWLINE [SEMI; LF] l) = ink l
  /\ (no_space_run l = true ->
      no_space_run (re_sub REGEX_SEMICOLON_EXPLODE_TO_NEWLINE [SEMI; LF] l) = true).
Proof.
  remember (length l) as n eqn:Hn. revert l Hn.
  induction n as [n IH] using lt_wf_ind. intros [|c t] Hn.
  { rewrite re_sub_nil. repeat split. discriminate. }
  rewrite re_sub_cons.
  set (f := re_sub REGEX_SEMICOLON_EXPLODE_TO_NEWLINE [SEMI; LF]) in *.
  destruct t as [|c2 t'].
  - change (REGEX_SEMICOLON_EXPLODE_TO_NEWLINE [c]) with (@None nat).
    unfold f. rewrite re_sub_nil. simpl. rewrite andb_false_r. repeat split; auto.
  - change (REGEX_SEMICOLON_EXPLODE_TO_NEWLINE (c :: c2 :: t'))
      with (if Ascii.eqb c SEMI && is_space c2
            then Some (2 + span is_space t')%nat else None).
    destruct (Ascii.eqb c SEMI && is_space c2) eqn:Hcc.
    + apply andb_true_iff in Hcc as [Hc Hc2]. apply Ascii.eqb_eq in Hc as ->.
      change (drop (Nat.pred (2 + span is_space t')) (c2 :: t'))
        with (drop (span is_space t') t').
      set (rest := drop (span is_space t') t').
      destruct (IH (length rest)) with (l := rest) as (R1 & R2 & R3 & R4);
        [subst n; pose proof (length_after_span t'); unfold rest; simpl; lia
        | reflexivity |].
      pose proof (head_space_after_span t') as Hh. fold rest in Hh.
      assert (Hf : head_space (f rest) = false).
      { destruct (head_space (f rest)); [|reflexivity].
        rewrite (R2 eq_refl) in Hh. discriminate. }
      change ([SEMI; LF] ++ f rest) with (SEMI :: LF :: f rest).
      cbn [semicolons_end_lines no_space_run head_space head_is ink List.filter].
      fold (ink (f rest)). fold (ink t').
      assert (Hir : ink rest = ink t') by apply ink_after_span.
      rewrite R1, R3, Hf, Hc2, Hir.
      change (is_space SEMI) with false. change (is_space LF) with true.
      change (Ascii.eqb LF SEMI) with false.
      split; [reflexivity|]. split; [discriminate|]. split; [reflexivity|].
      intros Hl.
      apply andb_true_iff in Hl as [_ Hl]. apply andb_true_iff in Hl as [_ Hl].
      rewrite (R4 (no_space_run_drop _ _ Hl)). reflexivity.
    + destruct (IH (length (c2 :: t'))) with (l := c2 :: t') as (R1 & R2 & R3 & R4);
        [subst n; simpl; lia | reflexivity |].
      cbn [semicolons_end_lines no_space_run head_space ink List.filter].
      fold (ink (f (c2 :: t'))). fold (ink (c2 :: t')).
      rewrite R1, R3. rewrite !andb_true_r.
      split; [|split; [auto | split; [reflexivity|]]].
      * destruct (Ascii.eqb c SEMI); [|reflexivity].
        destruct (head_space (f (c2 :: t'))); [|reflexivity].
        pose proof (R2 eq_refl) as H2. simpl in H2, Hcc. rewrite H2 in Hcc.
        discriminate.
      * intros Hl. cbn [no_space_run] in Hl.
        apply andb_true_iff in Hl as [Hc Ht]. rewrite (R4 Ht), andb_true_r.
        destruct (is_space c); [|reflexivity].
        destruct (head_space (f (c2 :: t'))); [|reflexivity].
        pose proof (R2 eq_refl) as H2. cbn [head_space] in H2.
        rewrite H2 in Hc. discriminate.
Qed.

Lemma no_space_run_sound (l : list ascii) :
  no_space_run l = true ->
  forall p c1 c2 q, l = p ++ c1 :: c2 :: q ->
    is_space c1 = true -> is_space c2 = true -> False.
Proof.
  intros Hl p. revert l Hl. induction p as [|x p IH]; intros l Hl c1 c2 q -> H1 H2.
  - simpl in Hl. rewrite H1, H2 in Hl. discriminate.
  - cbn [app no_space_run] in Hl. apply andb_true_iff in Hl as [_ Hl].
    exact (IH _ Hl c1 c2 q eq_refl H1 H2).
Qed.

Lemma semicolons_end_lines_sound (l : list ascii) :
  semicolons_end_lines l = true ->
  forall p c q, l = p ++ SEMI :: c :: q -> is_space c = true -> c = LF.
Proof.
  intros Hl p. revert l Hl. induction p as [|x p IH]; intros l Hl c q -> Hc.
  - change ([] ++ SEMI :: c :: q) with (SEMI :: c :: q) in Hl.
    cbn [semicolons_end_lines head_space head_is] in Hl.
    rewrite Hc in Hl. change (Ascii.eqb SEMI SEMI) with true in Hl.
    apply andb_true_iff in Hl as [Hl _]. now apply Ascii.eqb_eq.
  - change ((x :: p) ++ SEMI :: c :: q) with (x :: (p ++ SEMI :: c :: q)) in Hl.
    cbn [semicolons_end_lines] in Hl. apply andb_true_iff in Hl as [_ Hl].
    exact (IH _ Hl c q eq_refl Hc).
Qed.

Lemma text_str (l : list ascii) : text (str l) = l.
Proof. apply list_ascii_of_string_of_list_ascii. Qed.

Lemma app_filters_text (d : string) :
  text (apply_filters app_filters d)
  = re_sub REGEX_SEMICOLON_EXPLODE_TO_NEWLINE [SEMI; LF]
      (re_sub REGEX_DISTANT_SEMICOLIN [SEMI]
         (re_sub REGEX_MULTI_SPACE [SP] (text d))).
Proof.
  unfold apply_filters, app_filters. cbn [fold_left].
  unfold filter_semicolon_newline, filter_distant_semicolon, filter_multi_space.
  now rewrite !text_str.
Qed.

End Filters.

Section Normalise.

Lemma collapse_skip (l : list ascii) :
  collapse_runs true l = collapse_runs false (drop (span is_space l) l).
Proof.
  induction l as [|c t IH]; [reflexivity|].
  cbn [collapse_runs span]. destruct (is_space c) eqn:Hc.
  - exact IH.
  - change (drop 0 (c :: t)) with (c :: t). cbn [collapse_runs].
    now rewrite Hc.
Qed.

(** [\s\s+] replaced by one blank collapses the runs *)
Lemma multi_space_collapses (l : list ascii) :
  re_sub REGEX_MULTI_SPACE [SP] l = collapse_runs false l.
Proof.
  remember (length l) as n eqn:Hn. revert l Hn.
  induction n as [n IH] using lt_wf_ind. intros [|c t] Hn.
  { now rewrite re_sub_nil. }
  rewrite re_sub_cons.
  destruct t as [|c2 t'].
  - change (REGEX_MULTI_SPACE [c]) with (@None nat).
    rewrite re_sub_nil. cbn [collapse_runs head_space].
    now destruct (is_space c).
  - change (REGEX_MULTI_SPACE (c :: c2 :: t'))
      with (if is_space c && is_space c2 then Some (2 + span is_space t')%nat
            else None).
    destruct (is_space c && is_space c2) eqn:Hcc.
    + apply andb_true_iff in Hcc as [Hc Hc2].
      change (drop (Nat.pred (2 + span is_space t')) (c2 :: t'))
        with (drop (span is_space t') t').
      rewrite (IH (length (drop (span is_space t') t')));
        [|subst n; pose proof (length_after_span t'); simpl; lia | reflexivity].
      cbn [collapse_runs head_space]. rewrite Hc, Hc2.
      now rewrite collapse_skip.
    + rewrite (IH (length (c2 :: t'))); [|subst n; simpl; lia | reflexivity].
      cbn [collapse_runs head_space] in *.
      destruct (is_space c); [|reflexivity].
      cbn [andb] in Hcc. now rewrite Hcc.
Qed.

Lemma distant_semicolon_tail (rest : list ascii) :
  rest = [] \/ rest = [LF] ->
  re_sub REGEX_DISTANT_SEMICOLIN [SEMI] rest = rest.
Proof.
  intros [-> | ->]; [apply re_sub_nil|].
  rewrite re_sub_cons. change (REGEX_DISTANT_SEMICOLIN [LF]) with (@None nat).
  now rewrite re_sub_nil.
Qed.

Lemma last_semicolon_dollar (l : list ascii) :
  last_semicolon l
  = match l with
    | c :: rest => Ascii.eqb c SEMI && at_dollar rest
    | [] => false
    end.
Proof.
  destruct l as [|c [|n [|x rest]]]; cbn [last_semicolon at_dollar];
    rewrite ?andb_true_r, ?andb_false_r; reflexivity.
Qed.

(** [(\s+;)$] replaced by a semicolon closes the last statement *)
Lemma distant_semicolon_closes (l : list ascii) :
  re_sub REGEX_DISTANT_SEMICOLIN [SEMI] l = close_last_statement l.
Proof.
  induction l as [|c t IH]; [apply re_sub_nil|].
  rewrite re_sub_cons. cbn [close_last_statement].
  rewrite last_semicolon_dollar.
  destruct (REGEX_DISTANT_SEMICOLIN (c :: t)) as [n|] eqn:Hm.
  - apply distant_semicolon_match in Hm as (k & rest & Hk & -> & Hd & Hrest).
    assert (Hd' : drop (S k) t = rest).
    { change (drop (S k) t) with (drop (S (S k)) (c :: t)).
      now apply (drop_next _ _ SEMI). }
    cbn [Nat.pred]. rewrite Hd', (distant_semicolon_tail _ Hrest).
    cbn [span] in Hk. destruct (is_space c); [|discriminate].
    injection Hk as Hk. rewrite Hk.
    change (drop (S k) (c :: t)) with (drop k t) in Hd. rewrite Hd.
    change (Ascii.eqb SEMI SEMI) with true.
    destruct Hrest as [-> | ->]; reflexivity.
  - rewrite IH. unfold REGEX_DISTANT_SEMICOLIN in Hm. cbn [span] in Hm.
    destruct (is_space c); [|reflexivity].
    change (drop (S (span is_space t)) (c :: t)) with (drop (span is_space t) t) in Hm.
    destruct (drop (span is_space t) t) as [|x rest]; [reflexivity|].
    destruct (Ascii.eqb x SEMI && at_dollar rest); [discriminate | reflexivity].
Qed.

Lemma break_skip (l : list ascii) :
  break_lines true l = break_lines false (drop (span is_space l) l).
Proof.
  induction l as [|c t IH]; [reflexivity|].
  cbn [break_lines span]. destruct (is_space c) eqn:Hc.
  - exact IH.
  - change (drop 0 (c :: t)) with (c :: t). cbn [break_lines].
    now rewrite Hc.
Qed.

(** [;\s+] replaced by a semicolon and a line feed breaks the lines *)
Lemma semicolon_newline_breaks (l : list ascii) :
  re_sub REGEX_SEMICOLON_EXPLODE_TO_NEWLINE [SEMI; LF] l = break_lines false l.
Proof.
  remember (length l) as n eqn:Hn. revert l Hn.
  induction n as [n IH] using lt_wf_ind. intros [|c t] Hn.
  { now rewrite re_sub_nil. }
  rewrite re_sub_cons.
  destruct t as [|c2 t'].
  - change (REGEX_SEMICOLON_EXPLODE_TO_NEWLINE [c]) with (@None nat).
    rewrite re_sub_nil. cbn [break_lines head_space].
    rewrite andb_false_r. now destruct (is_space c).
  - change (REGEX_SEMICOLON_EXPLODE_TO_NEWLINE (c :: c2 :: t'))
      with (if Ascii.eqb c SEMI && is_space c2
            then Some (2 + span is_space t')%nat else None).
    destruct (Ascii.eqb c SEMI && is_space c2) eqn:Hcc.
    + apply andb_true_iff in Hcc as [Hc Hc2]. apply Ascii.eqb_eq in Hc as ->.
      change (drop (Nat.pred (2 + span is_space t')) (c2 :: t'))
        with (drop (span is_space t') t').
      rewrite (IH (length (drop (span is_space t') t')));
        [|subst n; pose proof (length_after_span t'); simpl; lia | reflexivity].
      cbn [break_lines head_space]. rewrite Hc2.
      change (is_space SEMI) with false. change (Ascii.eqb SEMI SEMI) with true.
      cbn [andb]. now rewrite break_skip.
    + rewrite (IH (length (c2 :: t'))); [|subst n; simpl; lia | reflexivity].
      cbn [break_lines head_space] in *. rewrite Hcc.
      now destruct (is_space c).
Qed.

End Normalise.

(** C7 as written fails: in [a; ;] a semicolon is followed by a space,
    and the filters render the text as [a;;], with no line feed at
    all: the space is the white space in front of the semicolon that
    ends the text, which the second filter removes.  In [a;  b] the run
    of two spaces ends up as a line feed, not as a space. *)
Lemma semicolon_before_last_statement :
  text "a; ;" = text "a" ++ SEMI :: SP :: text ";"
  /\ is_space SP = true
  /\ apply_filters app_filters "a; ;" = "a;;"
  /\ ~ In LF (text (apply_filters app_filters "a; ;"))
  /\ apply_filters app_filters "a;  b" = "a;" +:+ nl +:+ "b".
Proof.
  repeat split; try reflexivity.
  vm_compute. intuition discriminate.
Qed.

(** C7, amended.  The three output filters, applied in the order of
    [app], yield the text in which every run of two or more
    white-space characters of the input has been replaced by one
    space, then the white space in front of the semicolon that ends
    the text (a final line feed aside) has been removed, then the
    white space that follows a semicolon has been replaced by one line
    feed.  In that text no two white-space characters are adjacent
    and every semicolon followed by a white-space character is
    followed by a line feed; the characters that are not white space
    are those of the input, in the same order. *)
Theorem output_filters_normalise (d : string) :
  text (apply_filters app_filters d) = normalise (text d)
  /\ (forall p c1 c2 q,
        text (apply_filters app_filters d) = p ++ c1 :: c2 :: q ->
        is_space c1 = true -> is_space c2 = true -> False)
  /\ (forall p c q,
        text (apply_filters app_filters d) = p ++ SEMI :: c :: q ->
        is_space c = true -> c = LF)
  /\ ink (text (apply_filters app_filters d)) = ink (text d).
Proof.
  rewrite app_filters_text.
  destruct (multi_space_props (text d)) as (A1 & _ & A3).
  destruct (distant_semicolon_props _ A1) as (B1 & _ & B3).
  destruct (semicolon_newline_props
              (re_sub REGEX_DISTANT_SEMICOLIN [SEMI]
                 (re_sub REGEX_MULTI_SPACE [SP] (text d))))
    as (C1 & _ & C3 & C4).
  split; [|split; [|split]].
  - unfold normalise.
    now rewrite semicolon_newline_breaks, distant_semicolon_closes,
      multi_space_collapses.
  - apply no_space_run_sound, C4, B1.
  - apply semicolons_end_lines_sound, C1.
  - now rewrite C3, B3, A3.
Qed.

(** * Further properties of the code *)

(** ** Versions that extend one another *)

Lemma re_split_nonempty (s : string) : re_split s <> [].
Proof.
  destruct s as [|c t]; simpl; [discriminate|].
  destruct (is_separator c); [discriminate|].
  destruct (re_split t); discriminate.
Qed.

Lemma re_split_append (x z : string) (c : ascii) :
  is_separator c = true ->
  re_split (x +:+ String c z) = re_split x ++ re_split z.
Proof.
  intros Hc. induction x as [|a x IH]; simpl.
  - now rewrite Hc.
  - rewrite IH. destruct (is_separator a); [reflexivity|].
    pose proof (re_split_nonempty x) as Hx.
    destruct (re_split x) as [|h r]; [contradiction | reflexivity].
Qed.

Lemma compare_arrays_prefix (xs zs : list string) :
  compare_arrays xs (xs ++ zs) = PyInt 0.
Proof.
  induction xs as [|x xs IH]; simpl.
  - now destruct zs.
  - now rewrite String.eqb_refl.
Qed.

(** X1.  A version and the same version followed by a separator and
    anything more compare as equal, in both orders: the loop stops at
    the end of the shorter array. *)
Theorem compare_version_extension (x z : string) (c : ascii) :
  is_separator c = true ->
  compare_version x (x +:+ String c z) = PyInt 0
  /\ compare_version (x +:+ String c z) x = PyInt 0.
Proof.
  intros Hc. unfold compare_version. rewrite (re_split_append x z c Hc).
  split; [|rewrite compare_arrays_sym]; apply compare_arrays_prefix.
Qed.

Lemma compare_version_extension_witness :
  compare_version "5.7" "5.7.30-log" = PyInt 0.
Proof.
  apply (proj1 (compare_version_extension "5.7" "30-log" (chr 46) eq_refl)).
Defined.

(** ** The tag of a script name *)

Section Tags.

Lemma replace_invalid_valid (c : ascii) : is_tag_char (replace_invalid c) = true.
Proof.
  unfold replace_invalid. destruct (is_tag_char c) eqn:H; [exact H | reflexivity].
Qed.

Lemma squeeze_keeps (p : ascii -> bool) (l : list ascii) :
  forallb p l = true -> forallb p (squeeze_underscores l) = true.
Proof.
  induction l as [|c t IH]; [reflexivity|].
  intros H. change (forallb p (c :: t)) with (p c && forallb p t) in H.
  apply andb_true_iff in H as [Hc Ht].
  destruct t as [|c2 t'].
  - simpl. destruct (is_underscore c); simpl; now rewrite Hc.
  - change (squeeze_underscores (c :: c2 :: t'))
      with (if is_underscore c
            then if is_underscore c2 then squeeze_underscores (c2 :: t')
                 else c :: squeeze_underscores (c2 :: t')
            else c :: squeeze_underscores (c2 :: t')).
    destruct (is_underscore c), (is_underscore c2);
      try (apply IH; exact Ht);
      (change (forallb p (c :: squeeze_underscores (c2 :: t')))
         with (p c && forallb p (squeeze_underscores (c2 :: t')));
       rewrite Hc; apply IH; exact Ht).
Qed.

Lemma squeeze_head (l : list ascii) :
  head (squeeze_underscores l) = head l.
Proof.
  induction l as [|c t IH]; [reflexivity|].
  destruct t as [|c2 t'].
  - simpl. now destruct (is_underscore c).
  - change (squeeze_underscores (c :: c2 :: t'))
      with (if is_underscore c
            then if is_underscore c2 then squeeze_underscores (c2 :: t')
                 else c :: squeeze_underscores (c2 :: t')
            else c :: squeeze_underscores (c2 :: t')).
    destruct (is_underscore c) eqn:Hc, (is_underscore c2) eqn:H2; try reflexivity.
    rewrite IH. simpl.
    now rewrite (is_underscore_eq c Hc), (is_underscore_eq c2 H2).
Qed.

Lemma squeeze_no_run (l : list ascii) :
  has_double_underscore (squeeze_underscores l) = false.
Proof.
  induction l as [|c t IH]; [reflexivity|].
  destruct t as [|c2 t'].
  - simpl. now destruct (is_underscore c).
  - change (squeeze_underscores (c :: c2 :: t'))
      with (if is_underscore c
            then if is_underscore c2 then squeeze_underscores (c2 :: t')
                 else c :: squeeze_underscores (c2 :: t')
            else c :: squeeze_underscores (c2 :: t')).
    pose proof (squeeze_head (c2 :: t')) as Hh.
    destruct (squeeze_underscores (c2 :: t')) as [|d u] eqn:Hs;
      [discriminate Hh|].
    injection Hh as ->.
    destruct (is_underscore c) eqn:Hc, (is_underscore c2) eqn:H2;
      try exact IH;
      (change (has_double_underscore (c :: c2 :: u))
         with (is_underscore c && is_underscore c2
               || has_double_underscore (c2 :: u));
       rewrite Hc, H2, IH; reflexivity).
Qed.

Lemma map_replace_valid (l : list ascii) :
  forallb is_tag_char l = true -> map replace_invalid l = l.
Proof.
  induction l as [|c t IH]; [reflexivity|]. simpl.
  intros H. apply andb_true_iff in H as [Hc Ht].
  unfold replace_invalid at 1. now rewrite Hc, (IH Ht).
Qed.

Lemma forallb_map_replace (l : list ascii) :
  forallb is_tag_char (map replace_invalid l) = true.
Proof.
  induction l as [|c t IH]; [reflexivity|]. simpl.
  now rewrite replace_invalid_valid, IH.
Qed.

End Tags.

Lemma clean_tag_chars (tg : string) :
  forallb is_tag_char (text (clean_tag tg)) = true
  /\ has_double_underscore (text (clean_tag tg)) = false.
Proof.
  rewrite clean_tag_spec, text_str. split.
  - apply squeeze_keeps, forallb_map_replace.
  - apply squeeze_no_run.
Qed.

(** X2.  The cleaned tag holds characters of [[A-Za-z0-9_-]] only and
    never two underscores in a row. *)
Theorem clean_tag_wellformed (tg : string) :
  forallb is_tag_char (text (clean_tag tg)) = true
  /\ has_double_underscore (text (clean_tag tg)) = false.
Proof.
  rewrite clean_tag_spec, text_str. split.
  - apply squeeze_keeps, forallb_map_replace.
  - apply squeeze_no_run.
Qed.

(** X3.  Cleaning a tag twice is the same as cleaning it once. *)
Theorem clean_tag_idempotent (tg : string) :
  clean_tag (clean_tag tg) = clean_tag tg.
Proof.
  destruct (clean_tag_chars tg) as [Hv Hr].
  rewrite (clean_tag_spec (clean_tag tg)).
  rewrite (map_replace_valid _ Hv), (squeeze_without_run _ Hr).
  unfold text, str. apply string_of_list_ascii_of_string.
Qed.

(** ** The names of the two scripts *)

Lemma append_cancel (a x y : string) : a +:+ x = a +:+ y -> x = y.
Proof.
  induction a as [|c a IH]; simpl; [auto|].
  intros H. injection H as H. auto.
Qed.

Lemma path_join_same_head (d a b : string) (h : ascii) (a' b' : string) :
  a = String h a' -> b = String h b' ->
  path_join d a = path_join d b -> a = b.
Proof.
  intros -> ->. unfold path_join.
  destruct (Ascii.eqb h (chr 47)); [auto|].
  destruct (negb (py_truthy d) || ends_with_slash d); intros H.
  - now apply append_cancel in H.
  - apply append_cancel in H. now apply (append_cancel "/") in H.
Qed.

Lemma path_join_differ (d base x y : string) (c : ascii) :
  x <> y ->
  path_join d (base +:+ String c x) <> path_join d (base +:+ String c y).
Proof.
  intros Hxy H. apply Hxy.
  assert (E : base +:+ String c x = base +:+ String c y).
  { destruct base as [|b base].
    - exact (path_join_same_head d _ _ c x y eq_refl eq_refl H).
    - exact (path_join_same_head d _ _ b _ _ eq_refl eq_refl H). }
  apply append_cancel in E. now injection E.
Qed.

(** X4.  The patch script and the revert script of a run never get the
    same file name: neither as returned by [create_pnames] nor once
    joined to the output directory. *)
Theorem script_names_differ (o : Options) (e : Env) :
  fst (create_pnames (selected_name (target_obj e)) (tag o) (today e) (no_date o))
  <> snd (create_pnames (selected_name (target_obj e)) (tag o) (today e) (no_date o))
  /\ name (st_p (initial_state o e)) <> name (st_r (initial_state o e)).
Proof.
  split.
  - simpl. intros H. apply append_cancel in H. discriminate.
  - unfold initial_state, create_pnames. simpl.
    apply path_join_differ. discriminate.
Qed.

(** ** The statements [app] puts around the blocks *)

Section Toggles.

Variables (tgt : SchemaObject) (side : string * string -> string).

Lemma layout_fk_on (wt wv wg wp : Pairs) :
  written_from (OFkChecks true) (layout tgt side wt wv wg wp)
  = if nonempty wt then [fk_checks true +:+ nl] else [].
Proof.
  unfold layout, opening.
  rewrite !written_from_app, !written_from_blocks.
  destruct (nonempty wt), (nonempty wv), (nonempty wg), (nonempty wp);
    reflexivity.
Qed.

Lemma layout_fk_off (wt wv wg wp : Pairs) :
  written_from (OFkChecks false) (layout tgt side wt wv wg wp)
  = if nonempty wt
       || negb (nonempty wv) && negb (nonempty wg) && nonempty wp
    then [fk_checks false +:+ nl] else [].
Proof.
  unfold layout, opening.
  rewrite !written_from_app, !written_from_blocks.
  destruct (nonempty wt), (nonempty wv), (nonempty wg), (nonempty wp);
    reflexivity.
Qed.

Lemma layout_select (wt wv wg wp : Pairs) :
  written_from OSelect (layout tgt side wt wv wg wp)
  = if nonempty wt || nonempty wv || nonempty wg || nonempty wp
    then [select tgt +:+ nl] else [].
Proof.
  unfold layout, opening.
  rewrite !written_from_app, !written_from_blocks.
  destruct (nonempty wt), (nonempty wv), (nonempty wg), (nonempty wp);
    reflexivity.
Qed.

Lemma nonempty_blocks k (w : Pairs) :
  nonempty w = false -> blocks k side w = [].
Proof. now destruct w. Qed.

Lemma layout_head (wt wv wg wp : Pairs) :
  head (layout tgt side wt wv wg wp)
  = if nonempty wt || nonempty wv || nonempty wg || nonempty wp
    then Some (OSelect, select tgt +:+ nl) else None.
Proof.
  unfold layout, opening.
  destruct (nonempty wt) eqn:Ht; [reflexivity|].
  rewrite (nonempty_blocks Table wt Ht).
  destruct (nonempty wv) eqn:Hv; [reflexivity|].
  rewrite (nonempty_blocks View wv Hv).
  destruct (nonempty wg) eqn:Hg; [reflexivity|].
  rewrite (nonempty_blocks Trigger wg Hg).
  destruct (nonempty wp) eqn:Hp; [reflexivity|].
  now rewrite (nonempty_blocks Procedure wp Hp).
Qed.

End Toggles.

Lemma layout_origins (tgt : SchemaObject) (wt wv wg wp : Pairs) :
  map fst (layout tgt fst wt wv wg wp) = map fst (layout tgt snd wt wv wg wp).
Proof.
  unfold layout, blocks. rewrite !List.map_app, !List.map_map. reflexivity.
Qed.

(** X5.  [FOREIGN_KEY_CHECKS] is switched back on exactly when a table
    pair was written.  It is switched off when a table pair was
    written, and also when the first pair written at all comes from
    the procedures; in that run it is never switched back on. *)
Theorem fk_checks_toggles (o : Options) (e : Env) (ft : option (list string))
  (s : Script) :
  written_from (OFkChecks true) (script_buffer s (fill_buffers o e ft))
  = (if nonempty (written_of o e ft Table) then [fk_checks true +:+ nl] else [])
  /\ written_from (OFkChecks false) (script_buffer s (fill_buffers o e ft))
  = (if nonempty (written_of o e ft Table)
        || negb (nonempty (written_of o e ft View))
           && negb (nonempty (written_of o e ft Trigger))
           && nonempty (written_of o e ft Procedure)
     then [fk_checks false +:+ nl] else []).
Proof.
  destruct (fill_buffers_spec o e ft) as (H & _). rewrite H.
  split; [apply layout_fk_on | apply layout_fk_off].
Qed.

(** X6.  When anything is written, a script starts with the [USE]
    statement and holds it once; when nothing is written the buffer is
    empty.  Both buffers receive the same sequence of writes. *)
Theorem use_written_first (o : Options) (e : Env) (ft : option (list string))
  (s : Script) :
  let any := nonempty (written_of o e ft Table) || nonempty (written_of o e ft View)
             || nonempty (written_of o e ft Trigger)
             || nonempty (written_of o e ft Procedure) in
  head (script_buffer s (fill_buffers o e ft))
  = (if any then Some (OSelect, select (target_obj e) +:+ nl) else None)
  /\ written_from OSelect (script_buffer s (fill_buffers o e ft))
  = (if any then [select (target_obj e) +:+ nl] else [])
  /\ map fst (script_buffer Patch (fill_buffers o e ft))
   = map fst (script_buffer Revert (fill_buffers o e ft)).
Proof.
  destruct (fill_buffers_spec o e ft) as (H & _). rewrite !H.
  split; [apply layout_head|]. split; [apply layout_select|].
  apply layout_origins.
Qed.

(** ** Saving the scripts *)

Section Saving.

Lemma truthy_line (x : string) : py_truthy (x +:+ nl) = true.
Proof. now destruct x. Qed.

Lemma truthy_append (x y : string) :
  py_truthy (x +:+ y) = py_truthy x || py_truthy y.
Proof. now destruct x. Qed.

Lemma getvalue_lines (b : PatchBuffer) :
  Forall (fun x => py_truthy (snd x) = true) (buffer b) ->
  py_truthy (getvalue b) = nonempty (buffer b).
Proof.
  unfold getvalue. destruct (buffer b) as [|x l]; [reflexivity|].
  intros H. apply Forall_inv in H. simpl.
  now rewrite truthy_append, H.
Qed.

Lemma layout_lines tgt side wt wv wg wp :
  Forall (fun x => py_truthy (snd x) = true) (layout tgt side wt wv wg wp).
Proof.
  assert (Hb : forall k w, Forall (fun x : Origin * string => py_truthy (snd x) = true)
                             (blocks k side w)).
  { intros k w. unfold blocks. apply List.Forall_forall. intros x Hx.
    apply List.in_map_iff in Hx as (pr & <- & _). apply truthy_line. }
  assert (Ho : forall k, Forall (fun x : Origin * string => py_truthy (snd x) = true)
                           (opening tgt k)).
  { intros k. unfold opening. destruct (opens_with_fk_checks k);
      repeat constructor; apply truthy_line. }
  unfold layout.
  repeat (apply List.Forall_app; split); auto;
    match goal with
    | |- Forall _ (if ?c then _ else _) => destruct c; auto
    end; repeat constructor; apply truthy_line.
Qed.

Lemma nonempty_layout tgt side wt wv wg wp :
  nonempty (layout tgt side wt wv wg wp)
  = nonempty wt || nonempty wv || nonempty wg || nonempty wp.
Proof.
  pose proof (layout_head tgt side wt wv wg wp) as H.
  destruct (layout tgt side wt wv wg wp);
    destruct (nonempty wt || nonempty wv || nonempty wg || nonempty wp);
    simpl in *; congruence.
Qed.

End Saving.


(** X7.  After the loops a buffer has been modified exactly when its
    text is not empty, so [save] never meets an empty modified buffer
    in [app]. *)
Theorem modified_iff_text (o : Options) (e : Env) (ft : option (list string)) :
  py_truthy (getvalue (st_p (fill_buffers o e ft)))
  = modified (st_p (fill_buffers o e ft))
  /\ py_truthy (getvalue (st_r (fill_buffers o e ft)))
  = modified (st_r (fill_buffers o e ft)).
Proof.
  destruct (fill_buffers_spec o e ft) as (Hb & Hmp & Hmr).
  pose proof (Hb Patch) as Hp. pose proof (Hb Revert) as Hr. simpl in Hp, Hr.
  rewrite Hmp, Hmr, !getvalue_lines, Hp, Hr, !nonempty_layout;
    [split; reflexivity | rewrite Hr | rewrite Hp]; apply layout_lines.
Qed.

Section SaveResult.

Variable e : Env.






End SaveResult.





(** ** A run that ends in the checks at the head of [app] *)

(** X17.  A run that ends in the checks at the head of [app], the URLs
    not both naming the database [*], never returns 0 and has no
    buffer to save: it has printed its error and left the disk as it
    was, or failed to make the [logs] directory or the log file and
    left the disk as it was, or logged its error, and then no file but
    the log file differs from the disk it found when the record is
    handed to the handlers of the root logger. *)
Theorem early_exit_writes_no_script (o : Options) (e : Env) (fs : FS) (r : Run) :
  front o e fs = Stop r ->
  check_url e "Source" "source" (sourcedb o) <> inr "*"
  \/ check_url e "Target" "target" (targetdb o) <> inr "*" ->
  buffers r = None
  /\ outcome r <> Return 0
  /\ ((exists msg, outcome r = Return 1 /\ events r = [Print msg] /\ disk r = fs
                   /\ made_dirs r = [])
      \/ (outcome r = Raise "OSError" /\ disk r = fs)
      \/ (exists msg fs',
            outcome r = Return 1
            /\ last (events r) = Some (LogError msg)
            /\ (forall n, n <> log_file o e -> fs' !! n = fs !! n)
            /\ disk r = emit e (handlers o e)
                          (length (w_events (prepared o e fs))) ERROR msg fs')).
Proof.
  unfold front. intros H Hw.
  destruct (negb (isabs (output_directory o))).
  { injection H as <-. split; [reflexivity|]. split; [discriminate|].
    left. eexists. repeat split. }
  destruct (negb (isdir e (output_directory o))).
  { injection H as <-. split; [reflexivity|]. split; [discriminate|].
    left. eexists. repeat split. }
  destruct (negb (isdir e (logs_directory o e)) && negb (can_makedirs e (logs_directory o e))).
  { injection H as <-. split; [reflexivity|]. split; [discriminate|].
    right. left. split; [reflexivity|].
    now destruct (py_truthy_opt (log_directory o) && negb (log_directory_usable o e)). }
  destruct (negb (root_has_handlers e) && negb (can_open e (log_file o e))).
  { injection H as <-. split; [reflexivity|]. split; [discriminate|].
    right. left. split; [reflexivity|].
    now destruct (py_truthy_opt (log_directory o) && negb (log_directory_usable o e)),
      (isdir e (logs_directory o e)). }
  assert (L : forall msg,
            let r := ends (Return 1) None
                       (log e (handlers o e) ERROR msg (prepared o e fs)) in
            buffers r = None /\ outcome r <> Return 0
            /\ ((exists msg, outcome r = Return 1 /\ events r = [Print msg]
                             /\ disk r = fs /\ made_dirs r = [])
                \/ (outcome r = Raise "OSError" /\ disk r = fs)
                \/ (exists msg fs',
                      outcome r = Return 1
                      /\ last (events r) = Some (LogError msg)
                      /\ (forall n, n <> log_file o e -> fs' !! n = fs !! n)
                      /\ disk r = emit e (handlers o e)
                                    (length (w_events (prepared o e fs))) ERROR msg fs'))).
  { intros msg r0. split; [reflexivity|]. split; [discriminate|].
    right. right. exists msg, (w_disk (prepared o e fs)).
    split; [reflexivity|]. split; [apply last_snoc|].
    split; [intros n Hn; now apply prepared_disk | reflexivity]. }
  destruct (check_url e "Source" "source" (sourcedb o)) as [msg|s].
  { injection H as <-. apply L. }
  destruct (check_url e "Target" "target" (targetdb o)) as [msg|t].
  { injection H as <-. apply L. }
  destruct (String.eqb s "*" && String.eqb t "*") eqn:E; [|discriminate].
  apply andb_true_iff in E as [Es Et].
  apply String.eqb_eq in Es as ->. apply String.eqb_eq in Et as ->.
  exfalso. destruct Hw as [Hw|Hw]; now apply Hw.
Qed.

Lemma early_exit_writes_no_script_witness :
  outcome (app relative_options example_run_env ∅) <> Return 0.
Proof.
  refine (proj1 (proj2 (early_exit_writes_no_script relative_options example_run_env ∅
                          (app relative_options example_run_env ∅) _ _))).
  - reflexivity.
  - left. discriminate.
Defined.

(** ** The filters never lengthen a text *)

Section FilterLength.

Lemma span_le (p : ascii -> bool) (l : list ascii) : (span p l <= length l)%nat.
Proof.
  induction l as [|c t IH]; simpl; [lia|]. destruct (p c); simpl; lia.
Qed.

Lemma re_sub_length (m : matcher) (repl : list ascii) :
  (forall s n, m s = Some n -> (length repl <= n <= length s)%nat) ->
  forall s, (length (re_sub m repl s) <= length s)%nat.
Proof.
  intros Hm s. remember (length s) as k eqn:Hk. revert s Hk.
  induction k as [k IH] using lt_wf_ind. intros [|c t] Hk.
  { rewrite re_sub_nil. simpl. lia. }
  rewrite re_sub_cons. destruct (m (c :: t)) as [n|] eqn:E.
  - apply Hm in E. simpl in E. rewrite length_app.
    assert (H : (length (re_sub m repl (drop (Nat.pred n) t))
                 <= length (drop (Nat.pred n) t))%nat).
    { apply (IH (length (drop (Nat.pred n) t))); [|reflexivity].
      subst k. rewrite length_drop. simpl. lia. }
    rewrite length_drop in H. subst k. simpl. lia.
  - assert (H : (length (re_sub m repl t) <= length t)%nat)
      by (apply (IH (length t)); [subst k; simpl; lia | reflexivity]).
    subst k. simpl. lia.
Qed.

Lemma multi_space_bounds s n :
  REGEX_MULTI_SPACE s = Some n -> (length [SP] <= n <= length s)%nat.
Proof.
  destruct s as [|c1 [|c2 t]]; try discriminate. simpl.
  destruct (is_space c1 && is_space c2); [|discriminate].
  intros [= <-]. pose proof (span_le is_space t). lia.
Qed.

Lemma semicolon_newline_bounds s n :
  REGEX_SEMICOLON_EXPLODE_TO_NEWLINE s = Some n ->
  (length [SEMI; LF] <= n <= length s)%nat.
Proof.
  destruct s as [|c1 [|c2 t]]; try discriminate. simpl.
  destruct (Ascii.eqb c1 SEMI && is_space c2); [|discriminate].
  intros [= <-]. pose proof (span_le is_space t). lia.
Qed.

Lemma distant_semicolon_bounds s n :
  REGEX_DISTANT_SEMICOLIN s = Some n -> (length [SEMI] <= n <= length s)%nat.
Proof.
  intros H. apply distant_semicolon_match in H as (k & rest & Hk & -> & Hd & _).
  assert (Hl : length (drop (S k) s) = S (length rest)) by now rewrite Hd.
  rewrite length_drop in Hl. simpl. lia.
Qed.

End FilterLength.

(** X10.  The three output filters never make a text longer. *)
Theorem output_filters_shorten (d : string) :
  (length (text (apply_filters app_filters d)) <= length (text d))%nat.
Proof.
  rewrite app_filters_text.
  etransitivity; [apply re_sub_length, semicolon_newline_bounds|].
  etransitivity; [apply re_sub_length, distant_semicolon_bounds|].
  apply re_sub_length, multi_space_bounds.
Qed.

(** ** Messages sent in batches *)

Section Rfind.

Variable msg : list ascii.

Lemma rfind_from_snoc (c x : ascii) (l : list ascii) : forall i found,
  rfind_from c (l ++ [x]) i found
  = if Ascii.eqb x c then i + Z.of_nat (length l) else rfind_from c l i found.
Proof.
  induction l as [|y l IH]; intros i found; simpl.
  - destruct (Ascii.eqb x c); [lia | reflexivity].
  - rewrite IH. destruct (Ascii.eqb x c); [lia | reflexivity].
Qed.

Lemma last_lf_0 : last_lf msg 0 = -1.
Proof. reflexivity. Qed.

Lemma last_lf_S (X : nat) :
  last_lf msg (S X)
  = match msg !! X with
    | Some x => if Ascii.eqb x LF then Z.of_nat X else last_lf msg X
    | None => last_lf msg X
    end.
Proof.
  unfold last_lf. destruct (msg !! X) as [x|] eqn:E.
  - rewrite (take_S_r _ _ _ E). unfold rfind. rewrite rfind_from_snoc.
    rewrite length_take. apply lookup_lt_Some in E.
    destruct (Ascii.eqb x LF); [lia | reflexivity].
  - apply lookup_ge_None in E. now rewrite !take_ge by lia.
Qed.

Lemma last_lf_char (X : nat) :
  last_lf msg X = -1
  \/ exists n, last_lf msg X = Z.of_nat n /\ (n < X)%nat /\ msg !! n = Some LF.
Proof.
  induction X as [|X IH]; [now left|].
  rewrite last_lf_S. destruct (msg !! X) as [x|] eqn:E.
  - destruct (Ascii.eqb x LF) eqn:Hx.
    + apply Ascii.eqb_eq in Hx as ->. right. exists X. auto with lia.
    + destruct IH as [IH | (n & H1 & H2 & H3)]; [now left|].
      right. exists n. auto with lia.
  - destruct IH as [IH | (n & H1 & H2 & H3)]; [now left|].
    right. exists n. auto with lia.
Qed.

Lemma last_lf_step (X : nat) :
  last_lf msg (S X) = last_lf msg X \/ last_lf msg (S X) = Z.of_nat X.
Proof.
  rewrite last_lf_S. destruct (msg !! X) as [x|]; [|now left].
  destruct (Ascii.eqb x LF); auto.
Qed.

Lemma last_lf_gap (X Y : nat) :
  (X <= Y)%nat -> last_lf msg Y = last_lf msg X \/ Z.of_nat X <= last_lf msg Y.
Proof.
  induction 1 as [|Y HY IH]; [now left|].
  destruct (last_lf_step Y) as [-> | ->]; [|right; lia].
  exact IH.
Qed.

Lemma last_lf_at (Y : nat) (n : nat) :
  last_lf msg Y = Z.of_nat n -> last_lf msg (S n) = Z.of_nat n.
Proof.
  intros H. destruct (last_lf_char Y) as [E | (m & E & _ & Hm)]; [lia|].
  assert (m = n) by lia. subst m.
  rewrite last_lf_S, Hm. now rewrite Ascii.eqb_refl.
Qed.

Lemma last_lf_lt (X : nat) : -1 <= last_lf msg X < Z.of_nat X \/ (X = 0%nat /\ last_lf msg X = -1).
Proof.
  destruct (last_lf_char X) as [E | (n & E & Hn & _)]; [|left; lia].
  destruct X; [right; auto | left; lia].
Qed.

End Rfind.

Section Batches.

Variables (sep : Z) (msg : list ascii).
Hypothesis sep_nonneg : 0 <= sep.

Lemma slice_extends (a b : Z) :
  0 <= a <= b ->
  take (Z.to_nat a) msg ++ slice msg a b = take (Z.to_nat b) msg.
Proof.
  intros H. unfold slice. rewrite take_take_drop. f_equal. lia.
Qed.

Lemma slice_length (a b : Z) :
  a <= b -> Z.of_nat (length (slice msg a b)) <= b - a.
Proof. intros H. unfold slice. rewrite length_take. lia. Qed.

Lemma batch_turn_spec (st : BatchState) :
  batch_inv sep msg st ->
  b_end st < Z.of_nat (length msg) ->
  exists c st',
    batch_turn sep msg st = (Batch (b_i st) c, st')
    /\ batch_inv sep msg st'
    /\ (batch_measure msg st' < batch_measure msg st)%nat
    /\ b_i st' = b_i st + 1
    /\ take (Z.to_nat (b_begin st)) msg ++ c = take (Z.to_nat (b_begin st')) msg
    /\ Z.of_nat (length c) <= sep + 1.
Proof.
  intros (HE & Hi & H1 & Hn1 & HJ) Hc.
  set (E := b_begin st) in *. set (L := b_last_new_line_idx st) in *.
  assert (Hend0 : (if b_i st =? 1 then b_end st else E + sep) = E + sep).
  { destruct (Z.eqb_spec (b_i st) 1) as [e|n]; [|reflexivity].
    destruct (H1 e) as (-> & -> & _). lia. }
  assert (HEl : E < Z.of_nat (length msg)).
  { destruct (Z.eq_dec (b_i st) 1) as [e|n].
    - destruct (H1 e) as (-> & _ & ?). lia.
    - rewrite (Hn1 n) in Hc. exact Hc. }
  unfold batch_turn. fold E L. rewrite Hend0.
  fold (last_lf msg (Z.to_nat (E + sep))).
  set (nl := last_lf msg (Z.to_nat (E + sep))).
  assert (Hgap : nl = last_lf msg (Z.to_nat E) \/ E <= nl).
  { destruct (last_lf_gap msg (Z.to_nat E) (Z.to_nat (E + sep))) as [G|G];
      [lia | now left | right; lia]. }
  assert (Hlt : nl < E + sep \/ nl = -1).
  { destruct (last_lf_lt msg (Z.to_nat (E + sep))) as [G|[_ G]]; fold nl in G; lia. }
  destruct (negb (nl =? -1) && negb (nl =? L)) eqn:Hbr.
  - apply andb_true_iff in Hbr as [B1 B2].
    apply negb_true_iff, Z.eqb_neq in B1. apply negb_true_iff, Z.eqb_neq in B2.
    assert (Hnl : E - 1 <= nl) by lia.
    assert (Hnl0 : 0 <= nl).
    { destruct (last_lf_char msg (Z.to_nat (E + sep))) as [G|(n & G & _)];
        fold nl in G; lia. }
    eexists _, _. split; [reflexivity|].
    unfold batch_inv; split; [|split; [|split; [|split]]];
      cbn [b_i b_begin b_end b_last_new_line_idx].
    + split; [lia|]. split; [lia|]. split; [lia|]. split; [reflexivity|].
      left. replace (Z.to_nat (nl + 1)) with (S (Z.to_nat nl)) by lia.
      rewrite (last_lf_at msg (Z.to_nat (E + sep)) (Z.to_nat nl)); fold nl; lia.
    + unfold batch_measure; cbn [b_begin b_last_new_line_idx]. fold E L.
      replace (nl =? nl + 1 - 1) with true by (symmetry; apply Z.eqb_eq; lia).
      destruct (Z.eqb_spec L (E - 1)); lia.
    + reflexivity.
    + apply slice_extends. lia.
    + pose proof (slice_length E (nl + 1)). lia.
  - eexists _, _. split; [reflexivity|].
    unfold batch_inv; split; [|split; [|split; [|split]]];
      cbn [b_i b_begin b_end b_last_new_line_idx].
    + split; [lia|]. split; [lia|]. split; [lia|]. split; [reflexivity|].
      replace (Z.to_nat (E + sep + 1)) with (S (Z.to_nat (E + sep))) by lia.
      destruct (last_lf_step msg (Z.to_nat (E + sep))) as [G|G]; rewrite G;
        fold nl; [now left | right; left; lia].
    + unfold batch_measure; cbn [b_begin b_last_new_line_idx]. fold E L.
      destruct (Z.eqb_spec L (E - 1)), (Z.eqb_spec nl (E + sep + 1 - 1)); lia.
    + reflexivity.
    + apply slice_extends. lia.
    + pose proof (slice_length E (E + sep + 1)). lia.
Qed.

Lemma batch_loop_spec (fuel : nat) : forall st,
  batch_inv sep msg st ->
  (batch_measure msg st < fuel)%nat ->
  exists posts,
    batch_loop fuel sep msg st = Some posts
    /\ take (Z.to_nat (b_begin st)) msg ++ concat (map post_content posts) = msg
    /\ Forall (fun p => Z.of_nat (length (post_content p)) <= sep + 1) posts
    /\ map post_index posts = map Some (seqZ (b_i st) (Z.of_nat (length posts))).
Proof.
  induction fuel as [|fuel IH]; intros st Hinv Hm; [lia|].
  cbn [batch_loop].
  destruct (Z.ltb_spec (b_end st) (Z.of_nat (length msg))) as [Hc|Hc].
  - destruct (batch_turn_spec st Hinv Hc) as (c & st' & -> & Hinv' & Hlt & Hi & Ht & Hl).
    destruct (IH st' Hinv') as (posts & -> & Hcat & Hall & Hidx); [lia|].
    exists (Batch (b_i st) c :: posts). split; [reflexivity|].
    split; [|split].
    + cbn [map concat post_content]. rewrite app_assoc, Ht. exact Hcat.
    + constructor; assumption.
    + cbn [map post_index length]. rewrite Nat2Z.inj_succ, seqZ_cons by lia.
      cbn [map]. f_equal. rewrite Hidx, Hi. f_equal. f_equal. lia.
  - exists []. split; [reflexivity|]. split; [|split; [constructor | reflexivity]].
    destruct Hinv as (HE & Hi & H1 & Hn1 & _).
    destruct (Z.eq_dec (b_i st) 1) as [e|n]; [destruct (H1 e) as (_ & ? & ?); lia|].
    rewrite (Hn1 n) in Hc. cbn [map concat]. rewrite app_nil_r.
    apply take_ge. lia.
Qed.

End Batches.

Lemma send_batched_spec (sep : Z) (msg : list ascii) :
  0 <= sep ->
  exists posts,
    send_batched sep msg = Some posts
    /\ concat (map post_content posts) = msg
    /\ (Z.of_nat (length msg) <= sep -> posts = [Whole msg])
    /\ (sep < Z.of_nat (length msg) ->
        Forall (fun p => Z.of_nat (length (post_content p)) <= sep + 1) posts
        /\ map post_index posts
           = map Some (seqZ 1 (Z.of_nat (length posts)))).
Proof.
  intros Hs. unfold send_batched.
  destruct (Z.gtb_spec (Z.of_nat (length msg)) sep) as [Hl|Hl].
  - destruct (batch_loop_spec sep msg Hs (2 * length msg + 2)
                {| b_i := 1; b_begin := 0; b_end := 0 + sep;
                   b_last_new_line_idx := 0 |})
      as (posts & E & Hcat & Hall & Hidx).
    + unfold batch_inv; cbn [b_i b_begin b_end b_last_new_line_idx].
      repeat split; try lia. right; right. reflexivity.
    + unfold batch_measure; cbn [b_begin b_last_new_line_idx]. simpl. lia.
    + exists posts. split; [exact E|]. split; [exact Hcat|].
      split; [lia | auto].
  - exists [Whole msg]. split; [reflexivity|]. split; [apply app_nil_r|].
    split; [reflexivity | lia].
Qed.

(** X11.  [send_msg_2_fei_shu] always comes to an end, and the texts it
    hands to [send_msg], put one after the other, are the message: no
    character is lost, sent twice or moved. *)
Theorem fei_shu_sends_whole_message (msg : list ascii) :
  exists posts,
    send_msg_2_fei_shu msg = Some posts
    /\ concat (map post_content posts) = msg.
Proof.
  destruct (send_batched_spec 20000 msg) as (posts & H1 & H2 & _); [lia|].
  exists posts. auto.
Qed.

(** X12.  A message of at most 20000 characters is sent once, whole,
    under the plain title.  A longer one is sent in batches numbered
    1, 2, 3, ... in order, each of at most 20001 characters. *)
Theorem fei_shu_batches (msg : list ascii) (posts : list Post) :
  send_msg_2_fei_shu msg = Some posts ->
  (Z.of_nat (length msg) <= 20000 -> posts = [Whole msg])
  /\ (20000 < Z.of_nat (length msg) ->
      Forall (fun p => Z.of_nat (length (post_content p)) <= 20001) posts
      /\ map post_index posts = map Some (seqZ 1 (Z.of_nat (length posts)))).
Proof.
  intros H.
  destruct (send_batched_spec 20000 msg) as (posts' & H1 & _ & H3 & H4); [lia|].
  unfold send_msg_2_fei_shu in H. rewrite H1 in H. injection H as ->.
  split; [exact H3 | exact H4].
Qed.

Lemma fei_shu_batches_witness :
  send_msg_2_fei_shu (text "short message") = Some [Whole (text "short message")]
  /\ [Whole (text "short message")] = [Whole (text "short message")].
Proof.
  split; [reflexivity|].
  apply (proj1 (fei_shu_batches (text "short message")
                  [Whole (text "short message")] eq_refl)).
  vm_compute. discriminate.
Defined.

(** ** Versioned file names *)

Example versioned_examples :
  versioned_from [] "/tmp/shop.patch.sql" = Some "/tmp/shop.patch.sql"
  /\ versioned_from ["/tmp/shop.patch.sql"] "/tmp/shop.patch.sql"
     = Some "/tmp/shop.patch_1.sql"
  /\ versioned_from ["/tmp/shop.patch.sql"; "/tmp/shop.patch_1.sql";
                     "/tmp/shop.patch_2.sql"] "/tmp/shop.patch.sql"
     = Some "/tmp/shop.patch_3.sql"
  /\ versioned_from ["/tmp/shop.patch_9.sql"; "/tmp/shop.patch_10.sql"]
       "/tmp/shop.patch.sql"
     = Some "/tmp/shop.patch_10.sql".
Proof. repeat split. Qed.

Section Versioned.

Lemma str_app (a b : list ascii) : str (a ++ b) = str a +:+ str b.
Proof. induction a as [|c a IH]; simpl; [reflexivity | now rewrite IH]. Qed.

Lemma str_text (s : string) : str (text s) = s.
Proof. apply string_of_list_ascii_of_string. Qed.

Lemma splitext_join (p : list ascii) :
  fst (splitext p) ++ snd (splitext p) = p.
Proof.
  unfold splitext.
  destruct (_ && _); simpl; [apply take_drop | apply app_nil_r].
Qed.

Lemma span_take (p : ascii -> bool) (l : list ascii) :
  forallb p (take (span p l) l) = true.
Proof.
  induction l as [|c t IH]; [reflexivity|]. simpl.
  destruct (p c) eqn:Hc; simpl; [now rewrite Hc | reflexivity].
Qed.

Lemma match_file_counter_digits (s g : list ascii) :
  match_file_counter s = Some g -> digit_string g.
Proof.
  destruct s as [|c t]; [discriminate|]. simpl.
  destruct (Ascii.eqb c USCORE); [|discriminate].
  destruct (span is_digit t) as [|k] eqn:Hk; [discriminate|].
  destruct (drop (S k) t) as [|d rest]; [discriminate|].
  destruct (_ && _); [|discriminate].
  intros [= <-]. split.
  - destruct t; [discriminate Hk | discriminate].
  - rewrite <- Hk. apply span_take.
Qed.

Lemma search_scan_digits (s g : list ascii) :
  search_scan s = Some g -> digit_string g.
Proof.
  induction s as [|c t IH]; [discriminate|].
  change (search_scan (c :: t))
    with (match match_file_counter (c :: t) with
          | Some g' => Some g'
          | None => search_scan t
          end).
  destruct (match_file_counter (c :: t)) as [g'|] eqn:E.
  - intros [= <-]. exact (match_file_counter_digits _ _ E).
  - exact IH.
Qed.

Lemma str_max_in (x : string) (l : list string) : In (str_max x l) (x :: l).
Proof.
  unfold str_max. revert x. induction l as [|y l IH]; intros x; simpl.
  - now left.
  - destruct (String.ltb x y).
    + destruct (IH y) as [H|H]; auto.
    + destruct (IH x) as [H|H]; auto.
Qed.

Lemma digit_not_space (c : ascii) : is_digit c = true -> is_int_space c = false.
Proof.
  unfold is_digit, is_int_space. cbv zeta.
  generalize (nat_of_ascii c). intros n H.
  apply andb_true_iff in H as [H1 H2].
  apply Nat.leb_le in H1. apply Nat.leb_le in H2.
  repeat match goal with
         | |- context [(?a <=? ?b)%nat] => destruct (Nat.leb_spec a b)
         | |- context [(?a =? ?b)%nat] => destruct (Nat.eqb_spec a b)
         end; simpl; try reflexivity; lia.
Qed.

Lemma digit_not_sign (c : ascii) :
  is_digit c = true ->
  Ascii.eqb c (chr 45) = false /\ Ascii.eqb c (chr 43) = false
  /\ Ascii.eqb c USCORE = false.
Proof.
  intros H. repeat split; apply Ascii.eqb_neq; intros ->; discriminate H.
Qed.

Lemma digit_val_nonneg (c : ascii) : is_digit c = true -> 0 <= digit_val c.
Proof.
  unfold is_digit, digit_val. cbv zeta. intros H.
  apply andb_true_iff in H as [H1 _]. apply Nat.leb_le in H1. lia.
Qed.

Lemma parse_digits_total (l : list ascii) : forall b acc,
  forallb is_digit l = true -> 0 <= acc -> (l <> [] \/ b = true) ->
  exists v, parse_digits b acc l = Some v /\ 0 <= v.
Proof.
  induction l as [|c t IH]; intros b acc Hl Hacc Hne.
  - destruct Hne as [Hne | ->]; [contradiction|]. exists acc. auto.
  - simpl in Hl. apply andb_true_iff in Hl as [Hc Ht].
    simpl. rewrite Hc. apply IH; [exact Ht | | now right].
    pose proof (digit_val_nonneg c Hc). lia.
Qed.

Lemma lstrip_digit (c : ascii) (t : list ascii) :
  is_digit c = true -> lstrip (c :: t) = c :: t.
Proof. intros H. simpl. now rewrite (digit_not_space c H). Qed.

Lemma strip_digits (g : list ascii) : digit_string g -> strip g = g.
Proof.
  intros [Hne Hd]. unfold strip.
  destruct g as [|c t]; [contradiction|].
  simpl in Hd. apply andb_true_iff in Hd as [Hc Ht].
  rewrite (lstrip_digit c t Hc).
  destruct (rev (c :: t)) as [|x r] eqn:Hr.
  - apply (f_equal (@length ascii)) in Hr. rewrite length_rev in Hr. discriminate.
  - assert (Hx : is_digit x = true).
    { assert (Hin : In x (c :: t)) by (apply List.in_rev; rewrite Hr; now left).
      assert (Hall : forallb is_digit (c :: t) = true) by (simpl; now rewrite Hc, Ht).
      rewrite List.forallb_forall in Hall. now apply Hall. }
    rewrite (lstrip_digit x r Hx), <- Hr. apply rev_involutive.
Qed.

Lemma py_int_digits (g : list ascii) :
  digit_string g -> exists v, py_int (str g) = Some v /\ 0 <= v.
Proof.
  intros Hg. unfold py_int. change (list_ascii_of_string (str g)) with (text (str g)).
  rewrite text_str, (strip_digits g Hg).
  destruct Hg as [Hne Hd]. destruct g as [|c t]; [contradiction|].
  assert (Hc : is_digit c = true) by (simpl in Hd; now apply andb_true_iff in Hd).
  destruct (digit_not_sign c Hc) as (-> & -> & _).
  apply parse_digits_total; [exact Hd | lia | now left].
Qed.

Lemma string_length_append (a b : string) :
  String.length (a +:+ b) = (String.length a + String.length b)%nat.
Proof. induction a as [|c a IH]; simpl; [reflexivity | now rewrite IH]. Qed.

Lemma suffixed_differs (name x ext : string) :
  name +:+ "_" +:+ x +:+ ext <> name +:+ ext.
Proof.
  intros H. apply append_cancel in H.
  apply (f_equal String.length) in H.
  rewrite string_length_append in H. simpl in H.
  rewrite string_length_append in H. lia.
Qed.

End Versioned.

Lemma counters_digits (files : list string) :
  Forall digit_string (omap (fun x => search_file_counter (text x)) files).
Proof.
  induction files as [|f files IH]; [constructor|].
  cbn [omap list_omap]. fold (omap (fun x => search_file_counter (text x)) files).
  destruct (search_file_counter (text f)) as [g|] eqn:E; [|exact IH].
  constructor; [|exact IH]. exact (search_scan_digits _ _ E).
Qed.

(** X13.  [versioned] splits the file name into a name and an
    extension that join back to it.  When the search finds no file it
    returns the file name; otherwise it returns the name, an
    underscore, a counter of at least 1 and the extension, which is
    never the file name itself, and [int] never fails on a counter. *)
Theorem versioned_from_shape (files : list string) (filename : string) :
  let name := str (fst (splitext (text filename))) in
  let ext := str (snd (splitext (text filename))) in
  name +:+ ext = filename
  /\ exists result,
       versioned_from files filename = Some result
       /\ match files with
          | [] => result = filename
          | _ :: _ =>
              result <> filename
              /\ exists n, 1 <= n /\ result = name +:+ "_" +:+ format_d n +:+ ext
          end.
Proof.
  intros name ext.
  assert (Hj : name +:+ ext = filename).
  { unfold name, ext. rewrite <- str_app, splitext_join. apply str_text. }
  split; [exact Hj|].
  unfold versioned_from.
  destruct (splitext (text filename)) as [nm ex] eqn:Hs.
  cbn [fst snd] in name, ext. fold name ext.
  destruct files as [|f files]; [eauto|].
  pose proof (counters_digits (f :: files)) as Hd.
  destruct (omap (fun x => search_file_counter (text x)) (f :: files)) as [|c cs].
  - eexists. split; [reflexivity|]. split.
    + intros H; eapply suffixed_differs; rewrite H; symmetry; exact Hj.
    + exists 1. split; [lia | reflexivity].
  - assert (Hm : exists g, digit_string g /\ str_max (str c) (map str cs) = str g).
    { destruct (str_max_in (str c) (map str cs)) as [H|H].
      - exists c. split; [now apply Forall_inv in Hd | now symmetry].
      - apply List.in_map_iff in H as (g & Hg & Hin). exists g. split; [|now symmetry].
        apply Forall_inv_tail in Hd. rewrite List.Forall_forall in Hd. now apply Hd. }
    destruct Hm as (g & Hg & ->).
    destruct (py_int_digits g Hg) as (v & -> & Hv).
    eexists. split; [reflexivity|]. split.
    + intros H; eapply suffixed_differs; rewrite H; symmetry; exact Hj.
    + exists (v + 1). split; [lia | reflexivity].
Qed.

(** ** Where a long message is cut *)

Section Cuts.

Variables (sep : Z) (msg : list ascii).
Hypothesis sep_nonneg : 0 <= sep.

Lemma slice_snoc (a n : nat) (x : ascii) :
  (a <= n)%nat -> msg !! n = Some x ->
  slice msg (Z.of_nat a) (Z.of_nat n + 1)
  = slice msg (Z.of_nat a) (Z.of_nat n) ++ [x].
Proof.
  intros Han Hx. unfold slice.
  replace (Z.to_nat (Z.of_nat n + 1 - Z.of_nat a)) with (S (n - a)) by lia.
  replace (Z.to_nat (Z.of_nat n - Z.of_nat a)) with (n - a)%nat by lia.
  rewrite Nat2Z.id. apply take_S_r. rewrite lookup_drop.
  now replace (a + (n - a))%nat with n by lia.
Qed.

Lemma batch_turn_cut (st : BatchState) :
  batch_inv sep msg st ->
  b_end st < Z.of_nat (length msg) ->
  b_end (snd (batch_turn sep msg st)) < Z.of_nat (length msg) ->
  cut_at_line sep (post_content (fst (batch_turn sep msg st))).
Proof.
  intros (HE & Hi & H1 & Hn1 & HJ) Hc.
  set (E := b_begin st) in *. set (L := b_last_new_line_idx st) in *.
  assert (Hend0 : (if b_i st =? 1 then b_end st else E + sep) = E + sep).
  { destruct (Z.eqb_spec (b_i st) 1) as [e|n]; [|reflexivity].
    destruct (H1 e) as (-> & -> & _). lia. }
  unfold batch_turn. fold E L. rewrite Hend0.
  fold (last_lf msg (Z.to_nat (E + sep))).
  set (nl := last_lf msg (Z.to_nat (E + sep))).
  assert (Hgap : nl = last_lf msg (Z.to_nat E) \/ E <= nl).
  { destruct (last_lf_gap msg (Z.to_nat E) (Z.to_nat (E + sep))) as [G|G];
      [lia | now left | right; lia]. }
  destruct (negb (nl =? -1) && negb (nl =? L)) eqn:Hbr;
    cbn [fst snd post_content b_end]; intros Hnext.
  - apply andb_true_iff in Hbr as [B1 B2].
    apply negb_true_iff, Z.eqb_neq in B1. apply negb_true_iff, Z.eqb_neq in B2.
    destruct (last_lf_char msg (Z.to_nat (E + sep))) as [G|(n & G & Hn & Hx)];
      fold nl in G; [lia|].
    destruct (Z.eq_dec nl (E - 1)) as [e|ne].
    + left. unfold slice. replace (Z.to_nat (nl + 1 - E)) with 0%nat by lia.
      reflexivity.
    + right; left. assert (HEn : E <= nl) by lia.
      rewrite G. replace E with (Z.of_nat (Z.to_nat E)) by lia.
      rewrite (slice_snoc (Z.to_nat E) n LF) by (auto; lia).
      apply last_snoc.
  - right; right. unfold slice. rewrite length_take, length_drop. lia.
Qed.

Lemma batch_loop_cut (fuel : nat) : forall st posts,
  batch_inv sep msg st ->
  batch_loop fuel sep msg st = Some posts ->
  forall k p, posts !! k = Some p -> (S k < length posts)%nat ->
              cut_at_line sep (post_content p).
Proof.
  induction fuel as [|fuel IH]; intros st posts Hinv; cbn [batch_loop].
  - destruct (b_end st <? Z.of_nat (length msg)); [discriminate|].
    intros [= <-] k p Hk. discriminate Hk.
  - destruct (Z.ltb_spec (b_end st) (Z.of_nat (length msg))) as [Hc|Hc];
      [|intros [= <-] k p Hk; discriminate Hk].
    pose proof (batch_turn_cut st Hinv Hc) as Hcut.
    destruct (batch_turn_spec sep msg sep_nonneg st Hinv Hc)
      as (c & st' & Ht & Hinv' & _).
    rewrite Ht in Hcut |- *. cbn [fst snd post_content] in Hcut.
    destruct (batch_loop fuel sep msg st') as [rest|] eqn:Hl; [|discriminate].
    intros [= <-] k p Hk Hlen. destruct k as [|k].
    + injection Hk as <-. apply Hcut.
      destruct fuel as [|fuel']; cbn [batch_loop] in Hl;
        destruct (Z.ltb_spec (b_end st') (Z.of_nat (length msg))) as [H|H];
        try assumption; try discriminate;
        injection Hl as <-; simpl in Hlen; lia.
    + apply (IH st' rest Hinv' Hl k p Hk). simpl in Hlen. lia.
Qed.

End Cuts.

(** X14.  Every batch of a long message but the last one is cut at a
    line end: it ends with a line feed, or it is empty, or it is
    [sep + 1] characters long, which happens when no new line end is
    found in reach.  [send_msg_2_fei_shu] runs this loop with [sep]
    set to 20000. *)
Theorem batches_cut_at_line_ends (sep : Z) (msg : list ascii)
  (posts : list Post) (k : nat) (p : Post) :
  0 <= sep ->
  send_batched sep msg = Some posts ->
  posts !! k = Some p ->
  (S k < length posts)%nat ->
  cut_at_line sep (post_content p).
Proof.
  intros Hs. unfold send_batched.
  destruct (Z.gtb_spec (Z.of_nat (length msg)) sep) as [Hl|Hl].
  - intros H. apply (batch_loop_cut sep msg Hs _ _ _ ) with (2 := H).
    unfold batch_inv; cbn [b_i b_begin b_end b_last_new_line_idx].
    repeat split; try lia. right; right. reflexivity.
  - intros [= <-] Hk Hlen. simpl in Hlen. lia.
Qed.

Lemma batches_cut_at_line_ends_witness :
  cut_at_line 4 (text "ab" ++ [LF]).
Proof.
  apply (batches_cut_at_line_ends 4 (text "ab" ++ LF :: text "cdefghij")
           [Batch 1 (text "ab" ++ [LF]); Batch 2 (text "cdefg");
            Batch 3 (text "hij")] 0 (Batch 1 (text "ab" ++ [LF]))).
  - lia.
  - reflexivity.
  - reflexivity.
  - simpl. lia.
Defined.

(** ** Texts the filters leave alone *)

Section FixedPoints.

Lemma re_sub_no_match (m : matcher) (repl s : list ascii) :
  matches_somewhere m s = false -> re_sub m repl s = s.
Proof.
  induction s as [|c t IH]; [intros _; apply re_sub_nil|].
  change (matches_somewhere m (c :: t))
    with (match m (c :: t) with
          | Some _ => true
          | None => matches_somewhere m t
          end).
  rewrite re_sub_cons. destruct (m (c :: t)); [discriminate|].
  intros H. now rewrite (IH H).
Qed.

Lemma multi_space_nowhere (l : list ascii) :
  no_space_run l = true -> matches_somewhere REGEX_MULTI_SPACE l = false.
Proof.
  induction l as [|c t IH]; [reflexivity|].
  intros H. cbn [no_space_run] in H. apply andb_true_iff in H as [Hc Ht].
  change (matches_somewhere REGEX_MULTI_SPACE (c :: t))
    with (match REGEX_MULTI_SPACE (c :: t) with
          | Some _ => true
          | None => matches_somewhere REGEX_MULTI_SPACE t
          end).
  destruct t as [|c2 t'].
  - reflexivity.
  - change (REGEX_MULTI_SPACE (c :: c2 :: t'))
      with (if is_space c && is_space c2 then Some (2 + span is_space t')%nat
            else None).
    cbn [head_space] in Hc. apply negb_true_iff in Hc. rewrite Hc.
    exact (IH Ht).
Qed.

Lemma span_head (l : list ascii) : head_space l = false -> span is_space l = 0%nat.
Proof. destruct l as [|c t]; [reflexivity|]. simpl. now intros ->. Qed.

Lemma semicolon_newline_fixed (l : list ascii) :
  no_space_run l = true -> semicolons_end_lines l = true ->
  re_sub REGEX_SEMICOLON_EXPLODE_TO_NEWLINE [SEMI; LF] l = l.
Proof.
  remember (length l) as n eqn:Hn. revert l Hn.
  induction n as [n IH] using lt_wf_ind. intros [|c t] Hn Hr Hs.
  { apply re_sub_nil. }
  rewrite re_sub_cons.
  cbn [no_space_run] in Hr. apply andb_true_iff in Hr as [Hrc Hrt].
  cbn [semicolons_end_lines] in Hs. apply andb_true_iff in Hs as [Hsc Hst].
  destruct t as [|c2 t'].
  - change (REGEX_SEMICOLON_EXPLODE_TO_NEWLINE [c]) with (@None nat).
    now rewrite re_sub_nil.
  - change (REGEX_SEMICOLON_EXPLODE_TO_NEWLINE (c :: c2 :: t'))
      with (if Ascii.eqb c SEMI && is_space c2
            then Some (2 + span is_space t')%nat else None).
    destruct (Ascii.eqb c SEMI && is_space c2) eqn:Hm.
    + cbn [head_space head_is] in Hsc. rewrite Hm in Hsc. cbn [implb] in Hsc.
      apply Ascii.eqb_eq in Hsc as ->.
      apply andb_true_iff in Hm as [Hc _]. apply Ascii.eqb_eq in Hc as ->.
      cbn [no_space_run] in Hrt. apply andb_true_iff in Hrt as [H2 Hrt'].
      change (is_space LF) with true in H2. cbn [andb] in H2.
      apply negb_true_iff in H2.
      cbn [semicolons_end_lines] in Hst. apply andb_true_iff in Hst as [_ Hst'].
      rewrite (span_head t' H2).
      change (drop (Nat.pred (2 + 0)) (LF :: t')) with t'.
      change ([SEMI; LF] ++ re_sub REGEX_SEMICOLON_EXPLODE_TO_NEWLINE [SEMI; LF] t')
        with (SEMI :: LF :: re_sub REGEX_SEMICOLON_EXPLODE_TO_NEWLINE [SEMI; LF] t').
      do 2 f_equal.
      apply (IH (length t')); [subst n; simpl; lia | reflexivity | assumption..].
    + f_equal.
      apply (IH (length (c2 :: t'))); [subst n; simpl; lia | reflexivity | assumption..].
Qed.

End FixedPoints.

(** X16.  A text with no two adjacent white-space characters, in which
    every semicolon followed by white space is followed by a line
    feed, and in which the pattern [(\s+;)$] matches nowhere, passes
    through the three output filters unchanged. *)
Theorem output_filters_fixed_point (d : string) :
  no_space_run (text d) = true ->
  semicolons_end_lines (text d) = true ->
  matches_somewhere REGEX_DISTANT_SEMICOLIN (text d) = false ->
  apply_filters app_filters d = d.
Proof.
  intros H1 H2 H3.
  rewrite <- (str_text (apply_filters app_filters d)), app_filters_text.
  rewrite (re_sub_no_match REGEX_MULTI_SPACE _ _ (multi_space_nowhere _ H1)).
  rewrite (re_sub_no_match REGEX_DISTANT_SEMICOLIN _ _ H3).
  rewrite (semicolon_newline_fixed _ H1 H2). apply str_text.
Qed.

Lemma output_filters_fixed_point_witness :
  apply_filters app_filters ("USE shop;" +:+ nl +:+ "DROP VIEW v;" +:+ nl)
  = "USE shop;" +:+ nl +:+ "DROP VIEW v;" +:+ nl.
Proof.
  apply output_filters_fixed_point; reflexivity.
Defined.

(** The filters are not idempotent: a second pass can still find white
    space before a final semicolon. *)
Example output_filters_second_pass :
  apply_filters app_filters "a ; " = "a ;" +:+ nl
  /\ apply_filters app_filters ("a ;" +:+ nl) = "a;" +:+ nl.
Proof. split; reflexivity. Qed.

(** ** Writing to a buffer *)

Lemma append_empty_r (s : string) : s +:+ EmptyString = s.
Proof.
  induction s as [|c s IH]; [reflexivity|].
  change (String c (s +:+ EmptyString) = String c s). now rewrite IH.
Qed.

Lemma append_assoc (a b c : string) : (a +:+ b) +:+ c = a +:+ (b +:+ c).
Proof.
  induction a as [|x a IH]; [reflexivity|].
  change (String x ((a +:+ b) +:+ c) = String x (a +:+ (b +:+ c))).
  now rewrite IH.
Qed.

Lemma getvalue_write (b : PatchBuffer) (o : Origin) (data : string) :
  getvalue (write b o data) = getvalue b +:+ data.
Proof.
  unfold getvalue, write. cbn [buffer].
  induction (buffer b) as [|x l IH].
  - change (data +:+ EmptyString = data). apply append_empty_r.
  - change ((x :: l) ++ [(o, data)]) with (x :: (l ++ [(o, data)])).
    cbn [map fold_right]. now rewrite IH, append_assoc.
Qed.

(** X15.  What is read from a buffer is everything written to it, in
    the order written: after a sequence of [write]s the text is the
    text before followed by the data of each write.  Each [write]
    marks the buffer as modified and leaves its name, filters and
    template context alone. *)
Theorem buffer_holds_all_writes (b : PatchBuffer) (ws : list (Origin * string)) :
  let b' := fold_left (fun acc w => write acc (fst w) (snd w)) ws b in
  getvalue b' = getvalue b +:+ fold_right String.append EmptyString (map snd ws)
  /\ modified b' = modified b || nonempty ws
  /\ name b' = name b /\ filters b' = filters b /\ ctx b' = ctx b.
Proof.
  revert b. induction ws as [|w ws IH]; intros b; cbv zeta;
    cbn [fold_left map fold_right].
  - rewrite append_empty_r, orb_false_r. repeat split.
  - destruct (IH (write b (fst w) (snd w))) as (H1 & H2 & H3 & H4 & H5).
    cbv zeta in H1, H2, H3, H4, H5.
    rewrite H1, H2, H3, H4, H5, getvalue_write, append_assoc.
    cbn [modified write nonempty name filters ctx].
    repeat split. now rewrite orb_true_r.
Qed.
